(** * authentik-enum: release-tag enumeration and asset fingerprinting

    A shallow embedding of [authentik-enum.py].  Python strings are lists
    of Unicode code points, [bytes] objects are lists of bytes, the [dict]
    built by [parse_link_header] is a [gmap] and the [seen] set of
    [github_fetch_release_tags] a [gset].  Network, terminal and
    environment are an explicit [world] consulted by the code; what the
    program sends, prints and sleeps is recorded in a trace of events. *)

From Stdlib Require Import ZArith NArith List String Ascii Strings.Byte QArith Lia.
From stdpp Require Import gmap list.
Import ListNotations.

Local Open Scope Z_scope.

(** ** Python strings *)

(** A [str] is a sequence of code points. *)
Abbreviation str := (list N).

(** A string literal of the source, read as its code points. *)
Definition lit (s : string) : str :=
  List.map N_of_ascii (list_ascii_of_string s).

Module PyStr.

(** [str.isspace] on one code point, which is also what [str.strip]
    removes and what [\s] matches in a [str] pattern. *)
Definition isspace (c : N) : bool :=
  ((9 <=? c) && (c <=? 13) || (28 <=? c) && (c <=? 32)
   || (c =? 0x85) || (c =? 0xa0) || (c =? 0x1680)
   || (0x2000 <=? c) && (c <=? 0x200a)
   || (c =? 0x2028) || (c =? 0x2029) || (c =? 0x202f)
   || (c =? 0x205f) || (c =? 0x3000))%N.

(** [s.lstrip()] / [s.lstrip(chars)]: drop the longest prefix of
    characters satisfying [p]. *)
Fixpoint lstrip_by (p : N -> bool) (s : str) : str :=
  match s with
  | c :: s' => if p c then lstrip_by p s' else s
  | [] => []
  end.

(** [s.rstrip()] / [s.rstrip(chars)]: the same from the right end. *)
Definition rstrip_by (p : N -> bool) (s : str) : str :=
  rev (lstrip_by p (rev s)).

(** [s.strip()] *)
Definition strip (s : str) : str := rstrip_by isspace (lstrip_by isspace s).

(** [s.rstrip("/")] *)
Definition rstrip_slash (s : str) : str := rstrip_by (N.eqb 47) s.

Definition eqb (a b : str) : bool := bool_decide (a = b).

(** [s.startswith(p)] *)
Fixpoint startswith (p s : str) : bool :=
  match p, s with
  | [], _ => true
  | a :: p', b :: s' => (a =? b)%N && startswith p' s'
  | _ :: _, [] => false
  end.

(** [s.split(sep)] for a one-character separator: always at least one
    field, empty fields are kept. *)
Fixpoint split (sep : N) (s : str) : list str :=
  match s with
  | [] => [[]]
  | c :: s' =>
      if (c =? sep)%N then [] :: split sep s'
      else match split sep s' with
           | f :: fs => (c :: f) :: fs
           | [] => [[c]]
           end
  end.

(** [sep.join(parts)] *)
Fixpoint join (sep : str) (parts : list str) : str :=
  match parts with
  | [] => []
  | [p] => p
  | p :: ps => p ++ sep ++ join sep ps
  end.

(** Decimal digits of a natural number, most significant first; [fuel]
    bounds the number of digits. *)
Fixpoint digits (fuel : nat) (n : N) (acc : str) : str :=
  match fuel with
  | O => acc
  | S fuel' =>
      let acc' := (48 + n mod 10)%N :: acc in
      if (n <? 10)%N then acc' else digits fuel' (n / 10)%N acc'
  end.

(** [str(i)] for an [int]. *)
Definition of_int (i : Z) : str :=
  let n := Z.to_N (Z.abs i) in
  let d := digits (S (N.to_nat (N.log2 n))) n [] in
  if i <? 0 then 45%N :: d else d.

End PyStr.

(** ** The [re] patterns of the source *)

Module Re.

(** [re.sub("^" + prefix, "", s)] for a literal, non-empty [prefix].
    Without [re.MULTILINE] the anchor [^] matches at position 0 only, so
    the substitution happens at most once: when [s] starts with
    [prefix], that occurrence is deleted. *)
Definition sub_anchored (prefix s : str) : str :=
  if PyStr.startswith prefix s then drop (length prefix) s else s.

End Re.

(** ** TagNormalizer *)

Definition normalize_tag (tag : str) : str :=
  let tag := PyStr.strip tag in
  let tag := Re.sub_anchored (lit "version/") tag in
  let tag := Re.sub_anchored (lit "v") tag in
  tag.

(** ** [hashlib.md5]

    The digest object of the probe: RFC 1321 with the usual streaming
    interface.  [update] buffers input and compresses every complete
    64-byte block; [hexdigest] pads a copy of the pending bytes. *)

Module Hashlib.

Definition mask32 : Z := 0xffffffff.
Definition wrap32 (x : Z) : Z := Z.land x mask32.
Definition add32 (x y : Z) : Z := wrap32 (x + y).
Definition not32 (x : Z) : Z := Z.lxor x mask32.
Definition rotl32 (x s : Z) : Z :=
  wrap32 (Z.lor (Z.shiftl x s) (Z.shiftr x (32 - s))).

(** T[i] = floor(2^32 * |sin(i + 1)|) *)
Definition T : list Z :=
  [ 0xd76aa478; 0xe8c7b756; 0x242070db; 0xc1bdceee; 0xf57c0faf; 0x4787c62a;
    0xa8304613; 0xfd469501; 0x698098d8; 0x8b44f7af; 0xffff5bb1; 0x895cd7be;
    0x6b901122; 0xfd987193; 0xa679438e; 0x49b40821; 0xf61e2562; 0xc040b340;
    0x265e5a51; 0xe9b6c7aa; 0xd62f105d; 0x02441453; 0xd8a1e681; 0xe7d3fbc8;
    0x21e1cde6; 0xc33707d6; 0xf4d50d87; 0x455a14ed; 0xa9e3e905; 0xfcefa3f8;
    0x676f02d9; 0x8d2a4c8a; 0xfffa3942; 0x8771f681; 0x6d9d6122; 0xfde5380c;
    0xa4beea44; 0x4bdecfa9; 0xf6bb4b60; 0xbebfbc70; 0x289b7ec6; 0xeaa127fa;
    0xd4ef3085; 0x04881d05; 0xd9d4d039; 0xe6db99e5; 0x1fa27cf8; 0xc4ac5665;
    0xf4292244; 0x432aff97; 0xab9423a7; 0xfc93a039; 0x655b59c3; 0x8f0ccc92;
    0xffeff47d; 0x85845dd1; 0x6fa87e4f; 0xfe2ce6e0; 0xa3014314; 0x4e0811a1;
    0xf7537e82; 0xbd3af235; 0x2ad7d2bb; 0xeb86d391 ].

(** Per-step left rotations. *)
Definition S : list Z :=
  [ 7; 12; 17; 22; 7; 12; 17; 22; 7; 12; 17; 22; 7; 12; 17; 22;
    5; 9; 14; 20; 5; 9; 14; 20; 5; 9; 14; 20; 5; 9; 14; 20;
    4; 11; 16; 23; 4; 11; 16; 23; 4; 11; 16; 23; 4; 11; 16; 23;
    6; 10; 15; 21; 6; 10; 15; 21; 6; 10; 15; 21; 6; 10; 15; 21 ].

Definition chain : Type := Z * Z * Z * Z.

Definition iv : chain := (0x67452301, 0xefcdab89, 0x98badcfe, 0x10325476).

Definition byte_val (b : byte) : Z := Z.of_N (Byte.to_N b).

(** Little-endian 32-bit words of a byte string. *)
Fixpoint words (bs : list byte) : list Z :=
  match bs with
  | b0 :: b1 :: b2 :: b3 :: rest =>
      (byte_val b0 + Z.shiftl (byte_val b1) 8 + Z.shiftl (byte_val b2) 16
       + Z.shiftl (byte_val b3) 24) :: words rest
  | _ => []
  end.

Definition step (M : list Z) (h : chain) (i : nat) : chain :=
  let '(a, b, c, d) := h in
  let '(f, g) :=
    if (i <? 16)%nat then
      (Z.lor (Z.land b c) (Z.land (not32 b) d), i)
    else if (i <? 32)%nat then
      (Z.lor (Z.land d b) (Z.land (not32 d) c), (5 * i + 1) mod 16)%nat
    else if (i <? 48)%nat then
      (Z.lxor (Z.lxor b c) d, (3 * i + 5) mod 16)%nat
    else
      (Z.lxor c (Z.lor b (not32 d)), (7 * i) mod 16)%nat in
  let f := add32 (add32 (add32 f a) (nth i T 0)) (nth g M 0) in
  (d, add32 b (rotl32 f (nth i S 0)), b, c).

(** One application of the compression function to a 64-byte block. *)
Definition compress (h : chain) (block : list byte) : chain :=
  let '(a, b, c, d) := h in
  let '(a', b', c', d') := fold_left (step (words block)) (seq 0 64) h in
  (add32 a a', add32 b b', add32 c c', add32 d d').

(** Compress the complete blocks at the front of [data]; what is left
    (fewer than 64 bytes when [fuel] is enough) stays pending. *)
Fixpoint absorb (fuel : nat) (h : chain) (data : list byte)
  : chain * list byte :=
  match fuel with
  | O => (h, data)
  | Datatypes.S fuel' =>
      if (length data <? 64)%nat then (h, data)
      else absorb fuel' (compress h (take 64 data)) (drop 64 data)
  end.

(** The state of a digest object. *)
Record md5 : Type := MD5 {
  md5_chain : chain;
  md5_pending : list byte;
  md5_count : Z                 (* bytes fed so far *)
}.

(** [hashlib.md5()] *)
Definition new : md5 := MD5 iv [] 0.

(** [m.update(data)] *)
Definition update (m : md5) (data : list byte) : md5 :=
  let all := md5_pending m ++ data in
  let '(h, rest) := absorb (length all) (md5_chain m) all in
  MD5 h rest (md5_count m + Z.of_nat (length data)).

Definition byte_of (x : Z) : byte :=
  match Byte.of_N (Z.to_N (Z.land x 0xff)) with
  | Some b => b
  | None => x00
  end.

(** [n] low-order bytes of [x], least significant first. *)
Fixpoint le_bytes (n : nat) (x : Z) : list byte :=
  match n with
  | O => []
  | Datatypes.S n' => byte_of x :: le_bytes n' (Z.shiftr x 8)
  end.

(** Padding: 0x80, zeros up to 56 modulo 64, the bit length on 64 bits. *)
Definition padding (count : Z) : list byte :=
  let zeros := Z.to_nat ((55 - count) mod 64) in
  x80 :: repeat x00 zeros ++ le_bytes 8 (Z.land (8 * count) 0xffffffffffffffff).

(** [m.digest()]; the object itself is left unchanged. *)
Definition digest (m : md5) : list byte :=
  let tail := md5_pending m ++ padding (md5_count m) in
  let '(a, b, c, d) := fst (absorb (length tail) (md5_chain m) tail) in
  le_bytes 4 a ++ le_bytes 4 b ++ le_bytes 4 c ++ le_bytes 4 d.

Definition hexdigit (x : Z) : N :=
  Z.to_N (if x <? 10 then 48 + x else 87 + x).

Definition hex_of_byte (b : byte) : str :=
  [hexdigit (Z.shiftr (byte_val b) 4); hexdigit (Z.land (byte_val b) 15)].

(** [m.hexdigest()]: two lowercase hexadecimal digits per byte. *)
Definition hexdigest (m : md5) : str :=
  concat (List.map hex_of_byte (digest m)).

(** [hashlib.md5(data)] *)
Definition md5_of (data : list byte) : md5 := update new data.

End Hashlib.

(** ** Exceptions, outcomes and the trace of effects *)

Inductive exn : Type :=
| UnknownUrlType (full_url : str)  (* ValueError("unknown url type: %r") *)
| EOFError                         (* input() at end of file *)
| OtherException (text : str)      (* whatever the network stack raises *)
| UrlParseError (full_url : str)   (* ValueError of urlparse, as "Invalid IPv6 URL" *)
| OverflowError.                   (* time.sleep: duration out of range *)

(** How a call ends: it returns, it raises, or the model ran out of the
    fuel that bounds the pagination loop. *)
Inductive outcome (A : Type) : Type :=
| Ok (a : A)
| Raise (e : exn)
| OutOfFuel.
Arguments Ok {A} a.
Arguments Raise {A} e.
Arguments OutOfFuel {A}.

(** Messages written to [sys.stderr]. *)
Inductive diag : Type :=
| NoBaseUrl                               (* "No base URL provided." *)
| FetchFailed (repo : str) (e : exn)      (* "Failed to fetch GitHub releases for ..." *)
| TokenTip                                (* "Tip: set GITHUB_TOKEN ..." *)
| Checking (i n : Z) (ver : str).         (* "checking [i/n] ver" *)

Inductive event : Type :=
| Stdout (line : str)                          (* print(line) *)
| Stderr (d : diag)                            (* print(..., file=sys.stderr) *)
| Prompt (msg : str)                           (* input(msg) *)
| Get (url : str) (headers : list (str * str)) (* opener.open(req, timeout) *)
| Sleep (secs : Q).                            (* time.sleep(secs) *)

Definition trace : Type := list event.

(** Effectful code: the events it caused and how it ended. *)
Definition M (A : Type) : Type := trace * outcome A.

Definition ret {A} (a : A) : M A := ([], Ok a).
Definition raise {A} (e : exn) : M A := ([], Raise e).
Definition emit (ev : event) : M unit := ([ev], Ok tt).

Definition bind {A B} (c : M A) (k : A -> M B) : M B :=
  match c with
  | (t, Ok a) => let '(t', r) := k a in (t ++ t', r)
  | (t, Raise e) => (t, Raise e)
  | (t, OutOfFuel) => (t, OutOfFuel)
  end.

Notation "'let*' x ':=' c 'in' k" := (bind c (fun x => k))
  (at level 10, x pattern, c at level 100, k at level 200).

Definition when (b : bool) (c : M unit) : M unit := if b then c else ret tt.

(** ** [urllib.request.Request] *)

Module Urllib.

(** [s.partition(sep)]: the text before and after the first [sep]. *)
Fixpoint partition (sep : N) (s : str) : option (str * str) :=
  match s with
  | [] => None
  | c :: s' =>
      if (c =? sep)%N then Some ([], s')
      else match partition sep s' with
           | Some (a, b) => Some (c :: a, b)
           | None => None
           end
  end.

(** [s.rpartition(sep)]: the same at the last [sep]. *)
Definition rpartition (sep : N) (s : str) : option (str * str) :=
  match partition sep (rev s) with
  | Some (a, b) => Some (rev b, rev a)
  | None => None
  end.

Definition ends_with_char (c : N) (s : str) : bool :=
  match rev s with
  | c' :: _ => (c' =? c)%N
  | [] => false
  end.

(** [unwrap]: '<URL:type://host/path>' --> 'type://host/path' *)
Definition unwrap (url : str) : str :=
  let url := PyStr.strip url in
  let url :=
    if PyStr.startswith (lit "<") url && ends_with_char 62 url
    then PyStr.strip (removelast (tl url)) else url in
  if PyStr.startswith (lit "URL:") url
  then PyStr.strip (drop 4 url) else url.

(** [_splittag]: '/path#tag' --> '/path', 'tag' *)
Definition splittag (url : str) : str * option str :=
  match rpartition 35 url with
  | Some (path, tag) => (path, Some tag)
  | None => (url, None)
  end.

(** The longest prefix without '/' and ':', and what follows it. *)
Fixpoint span_scheme (s : str) : str * str :=
  match s with
  | c :: s' =>
      if (c =? 47)%N || (c =? 58)%N then ([], s)
      else let '(a, b) := span_scheme s' in (c :: a, b)
  | [] => ([], [])
  end.

(** [_splittype]: the two groups of the pattern
    [([^/:]+):(.STAR)] (STAR the Kleene star, with re.DOTALL) matched at
    the start of [url], the scheme not yet lower-cased; [None] when the
    pattern does not match. *)
Definition splittype (url : str) : option (str * str) :=
  match span_scheme url with
  | ((_ :: _) as scheme, 58%N :: data) => Some (scheme, data)
  | _ => None
  end.

Record request : Type := MkRequest {
  full_url : str;
  fragment : option str;
  req_type : str;
  req_headers : list (str * str)
}.

(** The property [full_url] of a request: the fragment is put back when
    it is not empty. *)
Definition full_url_of (full : str) (frag : option str) : str :=
  match frag with
  | Some ((_ :: _) as tag) => full ++ 35%N :: tag
  | _ => full
  end.

(** After [_parse] the constructor calls [request_host], which parses
    the full URL with [urlparse].  That raises [ValueError] for some
    hosts: one with a single bracket, with a bracketed part that is no
    IPv6 literal, or whose NFKC normal form contains a delimiter.  Which
    hosts those are depends on the version of the library and on its
    Unicode tables, so the model decides only the case in which no
    version has anything to check: a URL [scheme://host] followed by
    nothing or by one of [/], [?], [#], where the scheme begins with a
    letter and goes on with letters, digits, [+], [-] and [.], and the
    host consists of visible ASCII characters other than the brackets. *)
Definition ascii_letter (c : N) : bool :=
  ((65 <=? c) && (c <=? 90) || (97 <=? c) && (c <=? 122))%N.

Definition scheme_char (c : N) : bool :=
  (ascii_letter c || (48 <=? c) && (c <=? 57)
   || (c =? 43) || (c =? 45) || (c =? 46))%N.

Definition host_delimiter (c : N) : bool :=
  ((c =? 47) || (c =? 63) || (c =? 35))%N.

Definition plain_host_char (c : N) : bool :=
  ((32 <? c) && (c <? 127) && negb (c =? 91) && negb (c =? 93))%N.

(** The text after the scheme and its colon. *)
Fixpoint after_scheme (s : str) : option str :=
  match s with
  | [] => None
  | c :: s' =>
      if (c =? 58)%N then Some s'
      else if scheme_char c then after_scheme s' else None
  end.

(** The host, which runs to the first delimiter, is plain. *)
Fixpoint plain_host (s : str) : bool :=
  match s with
  | [] => true
  | c :: s' =>
      if host_delimiter c then true else plain_host_char c && plain_host s'
  end.

Definition host_plain (url : str) : bool :=
  ascii_letter (hd 0%N url)
  && match after_scheme url with
     | Some rest => PyStr.startswith (lit "//") rest && plain_host (drop 2 rest)
     | None => false
     end.

(** [Request(url, headers=..., method="GET")]: the constructor parses
    the URL and raises [ValueError] when it has no scheme; then it
    computes the host of the request, which raises [ValueError] when
    [urlparse] refuses the URL.  [refused] is the verdict of [urlparse]
    for this URL; it is not consulted when the host is plain. *)
Definition Request (refused : bool) (url : str) (headers : list (str * str))
  : M request :=
  let '(full, frag) := splittag (unwrap url) in
  match splittype full with
  | Some (scheme, _) =>
      if negb (host_plain (full_url_of full frag)) && refused
      then raise (UrlParseError (full_url_of full frag))
      else ret (MkRequest full frag scheme headers)
  | None => raise (UnknownUrlType full)
  end.

End Urllib.

(** ** The world outside the program *)

(** One [read(n)] on a response: some bytes (none at end of body), or an
    exception of the transport. *)
Inductive read_event : Type :=
| Chunk (data : list byte)
| ReadFails.

(** What becomes of the request of a probe: how [opener.open] ends, or
    [Refused] when the URL is turned down with a [ValueError] before
    anything is sent.  Where the host check of [Request] can fail it is
    the constructor that refuses; for a plain host the constructor
    cannot, and the refusal is one of the opener. *)
Inductive open_outcome : Type :=
| Opened (status : Z) (body : list read_event)
| OpenHTTPError (code : option Z) (body : list read_event)
| OpenFails               (* URLError, TimeoutError, any other Exception *)
| Refused.

(** What becomes of one page request of the release index: the
    [tag_name] of each element of the decoded JSON array ([None] when
    absent or null) and the [Link] header, or an exception, or the
    refusal of the URL as for a probe. *)
Inductive index_outcome : Type :=
| IndexPage (tag_names : list (option str)) (link : option str)
| IndexRaises (e : exn)
| IndexRefused.

Record world : Type := World {
  input_line : option str;                 (* the line input() reads *)
  GITHUB_TOKEN : option str;               (* os.environ.get("GITHUB_TOKEN") *)
  index_get : str -> list (str * str) -> Q -> index_outcome;
  probe_get : str -> Q -> open_outcome;
  sleep_overflows : Q -> bool              (* time.sleep(--sleep) raises *)
}.

Definition probe_refused (o : open_outcome) : bool :=
  match o with Refused => true | _ => false end.

Definition index_refused (o : index_outcome) : bool :=
  match o with IndexRefused => true | _ => false end.

(** [time.sleep(secs)] for the duration given with [--sleep]: the
    function raises [OverflowError], without pausing, when the duration
    does not fit the clock of the platform (as 1e19 or inf, for which a
    refused finite value stands).  Where the bound lies depends on the
    platform, so the world tells.  The pause of 0.05 s that the release
    index client makes after each page is within the range of every
    clock; it is the event [Sleep] alone. *)
Definition time_sleep (w : world) (secs : Q) : M unit :=
  if sleep_overflows w secs then raise OverflowError else emit (Sleep secs).

(** ** ReleaseIndexClient *)

Definition GITHUB_API : str := lit "https://api.github.com".

(** The longest prefix of characters other than [stop], and the rest. *)
Fixpoint span_until (stop : N) (s : str) : str * str :=
  match s with
  | c :: s' =>
      if (c =? stop)%N then ([], s)
      else let '(a, b) := span_until stop s' in (c :: a, b)
  | [] => ([], [])
  end.

(** [$] without [re.MULTILINE]: the end of the string, or just before a
    newline that ends it. *)
Definition at_dollar (s : str) : bool :=
  match s with
  | [] => true
  | [10%N] => true
  | _ => false
  end.

(** [re.match(PATTERN, part)] for the pattern
    [^<([^>]+)>;\s*rel=Q([^Q]+)Q$], Q standing for the double quote:
    groups 1 and 2.  Each repetition is followed by a character it cannot
    contain, so the match never needs to give characters back. *)
Definition match_link_part (part : str) : option (str * str) :=
  if PyStr.startswith (lit "<") part then
    let '(url, s2) := span_until 62 (drop 1 part) in           (* [^>]+ *)
    if negb (PyStr.eqb url []) && PyStr.startswith (lit ">;") s2 then
      let s4 := PyStr.lstrip_by PyStr.isspace (drop 2 s2) in   (* \s* *)
      if PyStr.startswith (lit "rel=" ++ [34%N]) s4 then
        let '(rel, s6) := span_until 34 (drop 5 s4) in         (* [^Q]+ *)
        if negb (PyStr.eqb rel []) && PyStr.startswith [34%N] s6
           && at_dollar (drop 1 s6)
        then Some (url, rel) else None
      else None
    else None
  else None.

Definition parse_link_header (link : str) : gmap str str :=
  fold_left
    (fun out part =>
       let part := PyStr.strip part in
       match match_link_part part with
       | Some (url, rel) => <[rel := url]> out
       | None => out
       end)
    (PyStr.split 44 link) ∅.

(** The body of [for rel in data]. *)
Definition add_release (acc : list str * gset str) (rel : option str)
  : list str * gset str :=
  let '(versions, seen) := acc in
  let tag := normalize_tag (default [] rel) in
  if bool_decide (tag = []) || bool_decide (tag ∈ seen) then acc
  else (versions ++ [tag], {[tag]} ∪ seen).

(** [while url: ...]; one unit of [fuel] per page request. *)
Fixpoint fetch_pages (fuel : nat) (w : world) (headers : list (str * str))
    (timeout : Q) (url : str) (versions : list str) (seen : gset str)
  : M (list str) :=
  match url with
  | [] => ret versions
  | _ :: _ =>
      match fuel with
      | O => ([], OutOfFuel)
      | S fuel' =>
          let* req :=
            Urllib.Request (index_refused (index_get w url headers timeout))
                           url headers in
          let* _ := emit (Get url headers) in
          match index_get w url headers timeout with
          | IndexRaises e => raise e
          | IndexRefused => raise (UrlParseError url)
          | IndexPage data link =>
              let '(versions, seen) :=
                fold_left add_release data (versions, seen) in
              let link := default [] link in
              let url := default [] (parse_link_header link !! lit "next") in
              let* _ := emit (Sleep (5 # 100)) in
              fetch_pages fuel' w headers timeout url versions seen
          end
      end
  end.

Definition github_fetch_release_tags (fuel : nat) (w : world) (repo : str)
    (timeout : Q) (token : option str) : M (list str) :=
  let headers :=
    [ (lit "Accept", lit "application/vnd.github+json");
      (lit "X-GitHub-Api-Version", lit "2022-11-28");
      (lit "User-Agent", lit "authentik-admin-js-md5") ] in
  let headers :=
    match token with
    | Some ((_ :: _) as t) => headers ++ [(lit "Authorization", lit "Bearer " ++ t)]
    | _ => headers
    end in
  let url := GITHUB_API ++ lit "/repos/" ++ repo
             ++ lit "/releases?per_page=100&page=1" in
  fetch_pages fuel w headers timeout url [] ∅.

(** ** ContentProbe *)

(** [while True: chunk = r.read(1024 * 128) ...]: feed every chunk to the
    digest and count its bytes until a read returns no bytes; [None] when
    a read raises.  The source has this loop twice, for the response and
    for the body of an [HTTPError]. *)
Fixpoint read_all (body : list read_event) (md5 : Hashlib.md5) (total : Z)
  : option (Hashlib.md5 * Z) :=
  match body with
  | [] => Some (md5, total)
  | Chunk [] :: _ => Some (md5, total)
  | Chunk chunk :: body' =>
      read_all body' (Hashlib.update md5 chunk) (total + Z.of_nat (length chunk))
  | ReadFails :: _ => None
  end.

Definition probe_headers : list (str * str) :=
  [ (lit "User-Agent", lit "authentik-admin-js-md5") ].

Definition fetch_status_md5_bytes (w : world) (url : str) (timeout : Q)
  : M (Z * str * Z) :=
  let* req :=
    Urllib.Request (probe_refused (probe_get w url timeout)) url probe_headers in
  let md5 := Hashlib.new in
  let total := 0 in
  let* _ := emit (Get url probe_headers) in
  match probe_get w url timeout with
  | Opened status body =>
      match read_all body md5 total with
      | Some (md5, total) => ret (status, Hashlib.hexdigest md5, total)
      | None => ret (0, lit "-", 0)        (* except (..., Exception) *)
      end
  | OpenHTTPError code body =>             (* except HTTPError as e *)
      let status := default 0 code in
      match read_all body md5 total with
      | Some (md5, total) =>
          let md5_hex :=
            if total >? 0 then Hashlib.hexdigest md5
            else Hashlib.hexdigest (Hashlib.md5_of []) in
          ret (status, md5_hex, total)
      | None => ret (status, lit "-", 0)   (* except Exception *)
      end
  | OpenFails | Refused => ret (0, lit "-", 0)  (* except (..., Exception) *)
  end.

(** ** ScanDriver *)

(** The parsed command line.  The two durations are floats; [--sleep]
    is only compared with 0 and given to [time.sleep], so that [nan] and
    [-inf] behave as 0 and [inf] as a value that [time.sleep] refuses. *)
Record args : Type := Args {
  arg_base_url : option str;      (* --base-url *)
  arg_repo : str;                 (* --repo *)
  arg_timeout : Q;                (* --timeout *)
  arg_sleep : Q;                  (* --sleep *)
  arg_all : bool;                 (* --all *)
  arg_include_404 : bool;         (* --include-404 *)
  arg_verbose : bool              (* --verbose *)
}.

Definition tab : str := [9%N].

Definition tsv_header : str :=
  lit "version" ++ tab ++ lit "http_status" ++ tab ++ lit "md5" ++ tab
  ++ lit "bytes" ++ tab ++ lit "url".

(** f"{ver}\t{status}\t{md5_hex}\t{nbytes}\t{js_url}" *)
Definition tsv_row (ver : str) (status : Z) (md5_hex : str) (nbytes : Z)
    (js_url : str) : str :=
  ver ++ tab ++ PyStr.of_int status ++ tab ++ md5_hex ++ tab
  ++ PyStr.of_int nbytes ++ tab ++ js_url.

(** f"{base_url}/static/dist/admin/AdminInterface-{ver}.js" *)
Definition js_url_of (base_url ver : str) : str :=
  base_url ++ lit "/static/dist/admin/AdminInterface-" ++ ver ++ lit ".js".

(** What the body of the [for] loop decides before [hits] is updated:
    [Some code] for [return code], [None] to go on. *)
Definition report (a : args) (ver : str) (status : Z) (md5_hex : str)
    (nbytes : Z) (js_url : str) : M (option Z) :=
  if (status =? 404) && negb (arg_include_404 a) then
    ret None
  else if arg_all a then
    let* _ := emit (Stdout (tsv_row ver status md5_hex nbytes js_url)) in
    ret None
  else if status =? 200 then
    let* _ := emit (Stdout (tsv_row ver status md5_hex nbytes js_url)) in
    ret (Some 0)
  else
    ret None.

(** [for i, ver in enumerate(versions, start=1): ...] followed by the
    return statements after the loop; [n] is [len(versions)]. *)
Fixpoint scan (a : args) (w : world) (base_url : str) (n : Z) (i : Z)
    (hits : Z) (versions : list str) : M Z :=
  match versions with
  | [] => if negb (arg_all a) then ret 3 else ret 0
  | ver :: versions' =>
      let js_url := js_url_of base_url ver in
      let* _ := when (arg_verbose a) (emit (Stderr (Checking i n ver))) in
      let* (status, md5_hex, nbytes) :=
        fetch_status_md5_bytes w js_url (arg_timeout a) in
      let* r := report a ver status md5_hex nbytes js_url in
      match r with
      | Some code => ret code
      | None =>
          let hits := if status =? 200 then hits + 1 else hits in
          let* _ := when (negb (Qle_bool (arg_sleep a) 0))
                         (time_sleep w (arg_sleep a)) in
          scan a w base_url n (i + 1) hits versions'
      end
  end.

Definition prompt_text : str :=
  lit "Enter base URL (e.g. https://sso.example.com): ".

Definition main (fuel : nat) (a : args) (w : world) : M Z :=
  let base_url := PyStr.strip (default [] (arg_base_url a)) in
  let* base_url :=
    match base_url with
    | [] =>
        let* _ := emit (Prompt prompt_text) in
        match input_line w with
        | Some line => ret (PyStr.strip line)
        | None => raise EOFError
        end
    | _ :: _ => ret base_url
    end in
  let base_url := PyStr.rstrip_slash base_url in
  match base_url with
  | [] =>
      let* _ := emit (Stderr NoBaseUrl) in
      ret 2
  | _ :: _ =>
      let token :=
        match GITHUB_TOKEN w with
        | Some ((_ :: _) as t) => Some t
        | _ => None
        end in
      match github_fetch_release_tags fuel w (arg_repo a) (arg_timeout a) token with
      | (t, Raise e) =>
          (t ++ [Stderr (FetchFailed (arg_repo a) e); Stderr TokenTip], Ok 1)
      | (t, OutOfFuel) => (t, OutOfFuel)
      | (t, Ok versions) =>
          let* _ := (t, Ok tt) in
          let* _ := emit (Stdout tsv_header) in
          scan a w base_url (Z.of_nat (length versions)) 1 0 versions
      end
  end.

(** The status with which the interpreter leaves
    [raise SystemExit(main())]: the value returned, or 1 after the
    traceback of an exception nothing caught. *)
Definition exit_status (r : outcome Z) : option Z :=
  match r with
  | Ok code => Some code
  | Raise _ => Some 1
  | OutOfFuel => None
  end.

(** The lines written to standard output. *)
Definition stdout_of (t : trace) : list str :=
  omap (fun ev => match ev with Stdout l => Some l | _ => None end) t.

(** The requests sent over the network. *)
Definition requests_of (t : trace) : list str :=
  omap (fun ev => match ev with Get u _ => Some u | _ => None end) t.

(** * Vocabulary of the specification *)

(** ** Strings and tags *)

Definition bytes_lit (s : string) : list byte := list_byte_of_string s.

(** [s] does not begin with a character satisfying [p]. *)
Definition no_lead (p : N -> bool) (s : str) : Prop :=
  match s with
  | c :: _ => p c = false
  | [] => True
  end.

(** [s] does not end with a character satisfying [p]. *)
Definition no_trail (p : N -> bool) (s : str) : Prop := no_lead p (rev s).

Definition all_space (s : str) : Prop := Forall (fun c => PyStr.isspace c = true) s.

(** "Trim surrounding whitespace": [t] is [s] without the whitespace at
    its two ends. *)
Definition trims (s t : str) : Prop :=
  exists l r, s = l ++ t ++ r /\ all_space l /\ all_space r
              /\ no_lead PyStr.isspace t /\ no_trail PyStr.isspace t.

(** "Strip one leading literal [p] if present." *)
Definition strips_one (p s t : str) : Prop :=
  s = p ++ t \/ (~ (exists k, s = p ++ k) /\ t = s).

(** The three steps of the TagNormalizer, in order. *)
Definition normalize_steps (tag out : str) : Prop :=
  exists t1 t2, trims tag t1 /\ strips_one (lit "version/") t1 t2
                /\ strips_one (lit "v") t2 out.

(** A normalized value on which a second normalization has nothing to
    do at the front: it begins neither with 'v' nor with whitespace. *)
Definition settled (s : str) : Prop :=
  no_lead PyStr.isspace s /\ no_lead (N.eqb 118) s.

(** ** Probes *)

(** The bytes a body delivers before a read returns none, whatever the
    chunk boundaries; [None] when a read raises first. *)
Fixpoint body_bytes (body : list read_event) : option (list byte) :=
  match body with
  | [] => Some []
  | Chunk [] :: _ => Some []
  | Chunk chunk :: body' =>
      match body_bytes body' with
      | Some bs => Some (chunk ++ bs)
      | None => None
      end
  | ReadFails :: _ => None
  end.

(** A URL that passes the first check of [Request]: it has a scheme. *)
Definition has_scheme (url : str) : bool :=
  match Urllib.splittype (fst (Urllib.splittag (Urllib.unwrap url))) with
  | Some _ => true
  | None => false
  end.

(** The URL that [urlparse] sees in the constructor, and whether the
    constructor builds the request: the URL has a scheme, and its host is
    plain or [urlparse] does not refuse it. *)
Definition request_url (url : str) : str :=
  Urllib.full_url_of (fst (Urllib.splittag (Urllib.unwrap url)))
                     (snd (Urllib.splittag (Urllib.unwrap url))).

Definition accepted (refused : bool) (url : str) : bool :=
  has_scheme url && (Urllib.host_plain (request_url url) || negb refused).

(** The request of a probe is built, so that the probe is sent. *)
Definition probe_sent (w : world) (url : str) (timeout : Q) : bool :=
  accepted (probe_refused (probe_get w url timeout)) url.

(** The request of a page of the index is built. *)
Definition page_sent (w : world) (headers : list (str * str)) (timeout : Q)
    (url : str) : bool :=
  accepted (index_refused (index_get w url headers timeout)) url.

(** What the probe returns once the request could be built, by what the
    network did. *)
Definition probe_result (o : open_outcome) : Z * str * Z :=
  match o with
  | Opened status body =>
      match body_bytes body with
      | Some bs => (status, Hashlib.hexdigest (Hashlib.md5_of bs), Z.of_nat (length bs))
      | None => (0, lit "-", 0)
      end
  | OpenHTTPError code body =>
      match body_bytes body with
      | Some bs => (default 0 code, Hashlib.hexdigest (Hashlib.md5_of bs),
                    Z.of_nat (length bs))
      | None => (default 0 code, lit "-", 0)
      end
  | OpenFails | Refused => (0, lit "-", 0)
  end.

(** [c] after the events [pre]. *)
Definition after {A} (pre : trace) (c : M A) : M A := (pre ++ fst c, snd c).

(** The digest of no bytes at all. *)
Definition md5_of_nothing : str := lit "d41d8cd98f00b204e9800998ecf8427e".

(** A world that answers every probe in the same way and has no release
    index. *)
Definition probe_world (o : open_outcome) : world :=
  World None None (fun _ _ _ => IndexRaises (OtherException (lit "offline")))
        (fun _ _ => o) (fun _ => false).

Definition example_url : str :=
  lit "https://sso.example.com/static/dist/admin/AdminInterface-1.0.js".

(** ** The scan *)

(** The events of one iteration of the scan before the probe, and its
    pause at the end. *)
Definition checking_events (a : args) (n i : Z) (ver : str) : trace :=
  if arg_verbose a then [Stderr (Checking i n ver)] else [].

Definition pause_events (a : args) : trace :=
  if negb (Qle_bool (arg_sleep a) 0) then [Sleep (arg_sleep a)] else [].

(** The pause at the end of an iteration, as the loop makes it, and
    whether it can be made: there is none to make, or [time.sleep] takes
    the duration. *)
Definition pause (a : args) (w : world) : M unit :=
  when (negb (Qle_bool (arg_sleep a) 0)) (time_sleep w (arg_sleep a)).

Definition pause_ok (a : args) (w : world) : bool :=
  Qle_bool (arg_sleep a) 0 || negb (sleep_overflows w (arg_sleep a)).

(** [os.environ.get("GITHUB_TOKEN") or None] *)
Definition env_token (w : world) : option str :=
  match GITHUB_TOKEN w with
  | Some ((_ :: _) as t) => Some t
  | _ => None
  end.

(** The base URL the user supplied: the [--base-url] argument unless it
    is blank, else the line typed at the prompt. *)
Definition supplied_base_url (a : args) (w : world) : option str :=
  match PyStr.strip (default [] (arg_base_url a)) with
  | [] => input_line w
  | _ :: _ => arg_base_url a
  end.

(** Nothing usable was supplied: only slashes, between blanks. *)
Definition unusable (s : str) : Prop :=
  exists l m r, s = l ++ m ++ r /\ all_space l /\ all_space r
                /\ Forall (fun c => c = 47%N) m.

(** The base of the probe URLs: the supplied text, trimmed, without its
    trailing slashes. *)
Definition base_of (s : str) : str := PyStr.rstrip_slash (PyStr.strip s).

(** The status the probe of [ver] reports, when it returns. *)
Definition probed_status (a : args) (w : world) (base_url ver : str)
  : option Z :=
  match snd (fetch_status_md5_bytes w (js_url_of base_url ver) (arg_timeout a)) with
  | Ok (status, _, _) => Some status
  | _ => None
  end.

(** [main] in two parts: reading the base URL (the prompt included), and
    everything from the test of the base URL on. *)
Definition read_base_url (a : args) (w : world) : M str :=
  match PyStr.strip (default [] (arg_base_url a)) with
  | [] =>
      let* _ := emit (Prompt prompt_text) in
      match input_line w with
      | Some line => ret (PyStr.strip line)
      | None => raise EOFError
      end
  | (_ :: _) as base_url => ret base_url
  end.

Definition run_with_base (fuel : nat) (a : args) (w : world) (base_url : str)
  : M Z :=
  match base_url with
  | [] => ([Stderr NoBaseUrl], Ok 2)
  | _ :: _ =>
      match github_fetch_release_tags fuel w (arg_repo a) (arg_timeout a)
              (env_token w) with
      | (t, Raise e) =>
          (t ++ [Stderr (FetchFailed (arg_repo a) e); Stderr TokenTip], Ok 1)
      | (t, OutOfFuel) => (t, OutOfFuel)
      | (t, Ok versions) =>
          after (t ++ [Stdout tsv_header])
                (scan a w base_url (Z.of_nat (length versions)) 1 0 versions)
      end
  end.

(** A deployment given without a scheme. *)
Definition schemeless_url : str :=
  lit "sso.example.com/static/dist/admin/AdminInterface-1.0.js".

(** A run against [https://sso.example.com] in find-first mode. *)
Definition example_base : str := lit "https://sso.example.com".

Definition example_args : args :=
  Args (Some (lit "https://sso.example.com/")) (lit "goauthentik/authentik")
       30 0 false false false.



(** ** The release index *)




(** An index of one page that lists the same release under two tags. *)
Definition two_tag_world : world :=
  World None None
        (fun _ _ _ => IndexPage [Some (lit "v1.0"); Some (lit "version/1.0")] None)
        (fun _ _ => OpenFails) (fun _ => false).

(** One entry of a [Link] header, [<url>; rel=Q name Q] with Q the double
    quote, and a header of several entries. *)
Definition link_entry (e : str * str) : str :=
  lit "<" ++ fst e ++ lit ">; rel=" ++ [34%N] ++ snd e ++ [34%N].

Definition link_header (entries : list (str * str)) : str :=
  PyStr.join (lit ", ") (List.map link_entry entries).

(** [c] does not occur in [s]. *)
Definition lacks (c : N) (s : str) : bool :=
  forallb (fun x => negb (x =? c)%N) s.

(** An entry the header syntax can carry: a non-empty URL without '>'
    and ',', a non-empty relation name without the double quote and ','. *)
Definition well_formed_entry (e : str * str) : Prop :=
  fst e <> [] /\ snd e <> []
  /\ lacks 62 (fst e) = true /\ lacks 44 (fst e) = true
  /\ lacks 34 (snd e) = true /\ lacks 44 (snd e) = true.

(** The mapping from relation name to URL; a later entry replaces an
    earlier one of the same name. *)
Definition mapping_of (entries : list (str * str)) : gmap str str :=
  fold_left (fun m e => <[snd e := fst e]> m) entries ∅.

(** The header GitHub sends with the first of five pages. *)
Definition example_entries : list (str * str) :=
  [ (lit "https://api.github.com/repositories/1/releases?per_page=100&page=2",
     lit "next");
    (lit "https://api.github.com/repositories/1/releases?per_page=100&page=5",
     lit "last") ].

(** The request headers without a token, and the first page request. *)
Definition anonymous_headers : list (str * str) :=
  [ (lit "Accept", lit "application/vnd.github+json");
    (lit "X-GitHub-Api-Version", lit "2022-11-28");
    (lit "User-Agent", lit "authentik-admin-js-md5") ].

Definition first_page_url : str :=
  lit "https://api.github.com/repos/goauthentik/authentik/releases?per_page=100&page=1".

Definition second_page_url : str :=
  lit "https://api.github.com/repositories/1/releases?per_page=100&page=2".

(** Following the [next] links from [url], the index comes to an end
    within [n] page requests: a page without [next] entry, a request that
    raises, or no URL at all. *)
Inductive ends_within (w : world) (headers : list (str * str)) (timeout : Q)
  : nat -> str -> Prop :=
| ends_no_url n :
    ends_within w headers timeout n []
| ends_rejected n url :
    url <> [] -> has_scheme url = false ->
    ends_within w headers timeout (S n) url
| ends_raises n url e :
    url <> [] -> has_scheme url = true ->
    index_get w url headers timeout = IndexRaises e ->
    ends_within w headers timeout (S n) url
| ends_refused n url :
    url <> [] -> has_scheme url = true ->
    index_get w url headers timeout = IndexRefused ->
    ends_within w headers timeout (S n) url
| ends_page n url data link :
    url <> [] -> has_scheme url = true ->
    index_get w url headers timeout = IndexPage data link ->
    ends_within w headers timeout n
      (default [] (parse_link_header (default [] link) !! lit "next")) ->
    ends_within w headers timeout (S n) url.

(** An index of two pages: the first one links to the second, which
    links to nothing. *)
Definition two_page_world : world :=
  World None None
        (fun url _ _ =>
           if PyStr.eqb url first_page_url then
             IndexPage [Some (lit "version/2024.2.1"); Some (lit "v2024.2.1")]
                       (Some (link_header example_entries))
           else IndexPage [Some (lit "version/2023.10.7")] None)
        (fun _ _ => OpenFails) (fun _ => false).

(** The body of the loop of [parse_link_header]. *)
Definition link_step (out : gmap str str) (part : str) : gmap str str :=
  match match_link_part (PyStr.strip part) with
  | Some (url, rel) => <[rel := url]> out
  | None => out
  end.

(** An index that lists the versions 1, 2 and 3 on one page, and a
    deployment that answers their probes with [o1], [o2] and [o3]. *)
Definition three_version_world (o1 o2 o3 : open_outcome) : world :=
  World None None
        (fun _ _ _ => IndexPage [Some (lit "1"); Some (lit "v2"); Some (lit "3")] None)
        (fun url _ =>
           if PyStr.eqb url (js_url_of example_base (lit "1")) then o1
           else if PyStr.eqb url (js_url_of example_base (lit "2")) then o2
           else o3)
        (fun _ => false).

Definition not_found : open_outcome :=
  OpenHTTPError (Some 404) [Chunk (bytes_lit "not found")].

Definition server_error : open_outcome :=
  OpenHTTPError (Some 500) [Chunk (bytes_lit "oops")].

Definition asset : open_outcome :=
  Opened 200 [Chunk (bytes_lit "console.log("); Chunk (bytes_lit "1)")].

Definition enumerate_args : args :=
  Args (Some (lit "https://sso.example.com/")) (lit "goauthentik/authentik")
       30 0 true false false.

(** ** Further vocabulary *)

(** The headers of the page requests, as [github_fetch_release_tags]
    builds them from the token. *)
Definition index_headers (token : option str) : list (str * str) :=
  match token with
  | Some ((_ :: _) as t) =>
      anonymous_headers ++ [(lit "Authorization", lit "Bearer " ++ t)]
  | _ => anonymous_headers
  end.

(** The first page request for [repo]. *)
Definition releases_url (repo : str) : str :=
  GITHUB_API ++ lit "/repos/" ++ repo ++ lit "/releases?per_page=100&page=1".

(** An event of the release index client: a page request with the
    headers [h], or its pause. *)
Definition index_event (h : list (str * str)) (ev : event) : Prop :=
  (exists url, ev = Get url h) \/ ev = Sleep (5 # 100).

(** One page request and the pause after it. *)
Definition page_events (h : list (str * str)) (url : str) : trace :=
  [Get url h; Sleep (5 # 100)].

(** An index whose only page names itself as the next one. *)
Definition looping_world : world :=
  World None None
        (fun _ _ _ => IndexPage [Some (lit "v1.0")]
                                (Some (link_header [(first_page_url, lit "next")])))
        (fun _ _ => OpenFails) (fun _ => false).

(** An index whose first page gives a relative URL as the next one. *)
Definition relative_link_world : world :=
  World None None
        (fun _ _ _ => IndexPage [Some (lit "v1.0")]
                                (Some (link_header [(lit "/releases?page=2", lit "next")])))
        (fun _ _ => OpenFails) (fun _ => false).

(** A scheme in front of a URL that [Request] will recognise: not empty,
    without '/', ':' and '#', beginning neither with a blank nor with
    '<', and other than the literal [URL] that [unwrap] removes. *)
Definition scheme_ok (scheme : str) : bool :=
  negb (PyStr.eqb scheme []) && lacks 47 scheme && lacks 58 scheme
  && lacks 35 scheme
  && negb (PyStr.isspace (hd 0%N scheme)) && negb (hd 0%N scheme =? 60)%N
  && negb (PyStr.eqb scheme (lit "URL")).

(** A lowercase hexadecimal digit. *)
Definition is_lower_hex (c : N) : bool :=
  ((48 <=? c) && (c <=? 57) || (97 <=? c) && (c <=? 102))%N.

(** What the scan may do: say which version it checks, when it is
    verbose; send a probe with the one fixed header; print a line; pause
    for [--sleep] seconds, when that is a positive time that
    [time.sleep] takes. *)
Definition scan_event (a : args) (w : world) (ev : event) : Prop :=
  match ev with
  | Stderr (Checking _ _ _) => arg_verbose a = true
  | Get _ headers => headers = probe_headers
  | Stdout _ => True
  | Sleep secs =>
      secs = arg_sleep a /\ Qle_bool secs 0 = false
      /\ sleep_overflows w secs = false
  | _ => False
  end.





(** Two runs that print the same lines, send the same requests and end
    in the same way. *)
Definition same_run {A} (m1 m2 : M A) : Prop :=
  stdout_of (fst m1) = stdout_of (fst m2)
  /\ requests_of (fst m1) = requests_of (fst m2)
  /\ snd m1 = snd m2.

(** Reading a decimal numeral: the value of a string of digits after
    the digits whose value is [acc], and [int(s)] for an optional minus
    sign followed by digits. *)
Fixpoint decimal_value (acc : N) (s : str) : N :=
  match s with
  | [] => acc
  | c :: s' => decimal_value (10 * acc + (c - 48))%N s'
  end.

Definition int_of_str (s : str) : Z :=
  match s with
  | 45%N :: d => - Z.of_N (decimal_value 0 d)
  | _ => Z.of_N (decimal_value 0 s)
  end.

Definition is_digit (c : N) : bool := ((48 <=? c) && (c <=? 57))%N.

(** A text in which no colon comes before the first slash: it has no
    colon at all, or a slash after a part without colon. *)
Definition no_colon_first (s : str) : Prop :=
  exists a b, lacks 58 a = true /\ (s = a \/ s = a ++ 47%N :: b).

(** * Properties *)

(** ** Strings *)

Section Strip.
Variable p : N -> bool.

Lemma lstrip_by_split (s : str) :
  exists l, s = l ++ PyStr.lstrip_by p s /\ Forall (fun c => p c = true) l.
Proof.
  induction s as [|c s IH]; simpl.
  - exists []. split; [reflexivity | constructor].
  - destruct (p c) eqn:Hc.
    + destruct IH as (l & Hs & Hl). exists (c :: l). split.
      * simpl. f_equal. exact Hs.
      * constructor; assumption.
    + exists []. split; [reflexivity | constructor].
Qed.

Lemma lstrip_by_no_lead (s : str) : no_lead p (PyStr.lstrip_by p s).
Proof.
  induction s as [|c s IH]; simpl; [exact I |].
  destruct (p c) eqn:Hc; [exact IH | exact Hc].
Qed.

Lemma lstrip_by_id (s : str) : no_lead p s -> PyStr.lstrip_by p s = s.
Proof. destruct s as [|c s]; simpl; [reflexivity | intros ->; reflexivity]. Qed.

Lemma lstrip_by_app_all (l s : str) :
  Forall (fun c => p c = true) l ->
  PyStr.lstrip_by p (l ++ s) = PyStr.lstrip_by p s.
Proof.
  induction 1 as [|c l Hc _ IH]; simpl; [reflexivity |].
  rewrite Hc. exact IH.
Qed.

Lemma lstrip_by_all (l : str) :
  Forall (fun c => p c = true) l -> PyStr.lstrip_by p l = [].
Proof.
  intros H. rewrite <- (app_nil_r l). rewrite lstrip_by_app_all by exact H.
  reflexivity.
Qed.

Lemma rstrip_by_split (s : str) :
  exists r, s = PyStr.rstrip_by p s ++ r /\ Forall (fun c => p c = true) r.
Proof.
  unfold PyStr.rstrip_by.
  destruct (lstrip_by_split (rev s)) as (l & Hs & Hl).
  exists (rev l). split.
  - rewrite <- rev_app_distr, <- Hs, rev_involutive. reflexivity.
  - apply List.Forall_rev, Hl.
Qed.

Lemma rstrip_by_no_trail (s : str) : no_trail p (PyStr.rstrip_by p s).
Proof.
  unfold no_trail, PyStr.rstrip_by. rewrite rev_involutive.
  apply lstrip_by_no_lead.
Qed.

Lemma rstrip_by_id (s : str) : no_trail p s -> PyStr.rstrip_by p s = s.
Proof.
  unfold no_trail, PyStr.rstrip_by. intros H.
  rewrite lstrip_by_id by exact H. apply rev_involutive.
Qed.

Lemma rstrip_by_app_all (s r : str) :
  Forall (fun c => p c = true) r ->
  PyStr.rstrip_by p (s ++ r) = PyStr.rstrip_by p s.
Proof.
  intros H. unfold PyStr.rstrip_by. rewrite rev_app_distr.
  rewrite lstrip_by_app_all; [reflexivity |].
  apply List.Forall_rev, H.
Qed.

(** Removing characters at the end keeps a clean front clean. *)
Lemma rstrip_by_keeps_no_lead (s : str) :
  no_lead p s -> no_lead p (PyStr.rstrip_by p s).
Proof.
  intros H. destruct (rstrip_by_split s) as (r & Hs & _).
  destruct (PyStr.rstrip_by p s) as [|c u]; [exact I |].
  rewrite Hs in H. exact H.
Qed.

(** Removing characters at the front keeps a clean end clean. *)
Lemma drop_keeps_no_trail (n : nat) (s : str) :
  no_trail p s -> no_trail p (drop n s).
Proof.
  unfold no_trail. intros H.
  rewrite <- (take_drop n s), rev_app_distr in H.
  destruct (rev (drop n s)) as [|c u]; [exact I | exact H].
Qed.

End Strip.

Lemma strip_trims (s : str) : trims s (PyStr.strip s).
Proof.
  unfold PyStr.strip.
  destruct (lstrip_by_split PyStr.isspace s) as (l & Hs & Hl).
  destruct (rstrip_by_split PyStr.isspace (PyStr.lstrip_by PyStr.isspace s))
    as (r & Hu & Hr).
  exists l, r. repeat split.
  - rewrite <- Hu. exact Hs.
  - exact Hl.
  - exact Hr.
  - apply rstrip_by_keeps_no_lead, lstrip_by_no_lead.
  - apply rstrip_by_no_trail.
Qed.

Lemma trims_strip (s t : str) : trims s t -> t = PyStr.strip s.
Proof.
  intros (l & r & -> & Hl & Hr & Hlead & Htrail). unfold PyStr.strip.
  rewrite lstrip_by_app_all by exact Hl.
  destruct t as [|c t].
  - simpl. rewrite lstrip_by_all by exact Hr. reflexivity.
  - rewrite lstrip_by_id by exact Hlead.
    rewrite rstrip_by_app_all by exact Hr.
    symmetry. apply rstrip_by_id, Htrail.
Qed.

Lemma strip_length (s : str) : (length (PyStr.strip s) <= length s)%nat.
Proof.
  destruct (strip_trims s) as (l & r & Hs & _).
  rewrite Hs at 2. rewrite !length_app. lia.
Qed.

Lemma strip_fixed (s : str) :
  length (PyStr.strip s) = length s -> PyStr.strip s = s.
Proof.
  intros Hlen. destruct (strip_trims s) as (l & r & Hs & _).
  assert (Hl : length l = 0%nat /\ length r = 0%nat).
  { rewrite Hs in Hlen at 2. rewrite !length_app in Hlen. lia. }
  destruct Hl as [Hl Hr].
  destruct l; [|discriminate]. destruct r; [|discriminate].
  simpl in Hs. rewrite app_nil_r in Hs. symmetry. exact Hs.
Qed.

Lemma startswith_spec (p s : str) :
  PyStr.startswith p s = true <-> exists k, s = p ++ k.
Proof.
  revert s. induction p as [|a p IH]; intros s; simpl.
  - split; [intros _; exists s; reflexivity | reflexivity].
  - destruct s as [|b s].
    + split; [discriminate | intros (k & Hk); discriminate].
    + rewrite andb_true_iff, N.eqb_eq, IH. split.
      * intros (-> & k & ->). exists k. reflexivity.
      * intros (k & Hk). injection Hk as -> ->. split; [reflexivity | eauto].
Qed.

Lemma sub_anchored_hit (p k : str) : Re.sub_anchored p (p ++ k) = k.
Proof.
  unfold Re.sub_anchored.
  replace (PyStr.startswith p (p ++ k)) with true
    by (symmetry; apply startswith_spec; eauto).
  apply drop_app_length.
Qed.

Lemma sub_anchored_miss (p s : str) :
  PyStr.startswith p s = false -> Re.sub_anchored p s = s.
Proof. unfold Re.sub_anchored. intros ->. reflexivity. Qed.

Lemma sub_anchored_strips (p s : str) : strips_one p s (Re.sub_anchored p s).
Proof.
  destruct (PyStr.startswith p s) eqn:Hp.
  - apply startswith_spec in Hp as (k & ->). left.
    rewrite sub_anchored_hit. reflexivity.
  - right. split.
    + intros Hk. apply startswith_spec in Hk. congruence.
    + apply sub_anchored_miss, Hp.
Qed.

Lemma strips_one_sub_anchored (p s t : str) :
  strips_one p s t -> t = Re.sub_anchored p s.
Proof.
  intros [-> | (Hno & ->)].
  - symmetry. apply sub_anchored_hit.
  - symmetry. apply sub_anchored_miss.
    destruct (PyStr.startswith p s) eqn:Hp; [|reflexivity].
    exfalso. apply Hno, startswith_spec, Hp.
Qed.

Lemma sub_anchored_length (p s : str) :
  (length (Re.sub_anchored p s) <= length s)%nat.
Proof.
  unfold Re.sub_anchored. destruct (PyStr.startswith p s); [|lia].
  rewrite length_drop. lia.
Qed.

Lemma sub_anchored_fixed (p s : str) :
  p <> [] -> length (Re.sub_anchored p s) = length s ->
  PyStr.startswith p s = false.
Proof.
  intros Hp Hlen. destruct (PyStr.startswith p s) eqn:Hs; [|reflexivity].
  exfalso. apply startswith_spec in Hs as (k & ->).
  rewrite sub_anchored_hit, length_app in Hlen.
  destruct p; [congruence | simpl in Hlen; lia].
Qed.

(** ** TagNormalizer *)

Lemma normalize_tag_no_trail (x : str) :
  no_trail PyStr.isspace (normalize_tag x).
Proof.
  unfold normalize_tag, Re.sub_anchored.
  assert (H : no_trail PyStr.isspace (PyStr.strip x))
    by apply rstrip_by_no_trail.
  repeat match goal with
         | |- context [if ?b then _ else _] => destruct b
         end;
    repeat apply drop_keeps_no_trail; exact H.
Qed.

Lemma normalize_tag_fixed_iff (y : str) :
  normalize_tag y = y <->
  no_lead PyStr.isspace y /\ no_trail PyStr.isspace y /\ no_lead (N.eqb 118) y.
Proof.
  split.
  - intros Hy.
    pose proof (strip_length y) as H1.
    pose proof (sub_anchored_length (lit "version/") (PyStr.strip y)) as H2.
    pose proof (sub_anchored_length (lit "v")
                  (Re.sub_anchored (lit "version/") (PyStr.strip y))) as H3.
    assert (Hlen : length (normalize_tag y) = length y) by (rewrite Hy; reflexivity).
    unfold normalize_tag in Hlen, Hy.
    assert (Hs : PyStr.strip y = y) by (apply strip_fixed; lia).
    rewrite Hs in *.
    assert (Hv1 : PyStr.startswith (lit "version/") y = false)
      by (apply sub_anchored_fixed; [discriminate | lia]).
    rewrite (sub_anchored_miss _ _ Hv1) in Hlen.
    assert (Hv : PyStr.startswith (lit "v") y = false)
      by (apply sub_anchored_fixed; [discriminate | lia]).
    repeat split.
    + rewrite <- Hs. destruct (strip_trims y) as (_ & _ & _ & _ & _ & H & _). exact H.
    + rewrite <- Hs. apply rstrip_by_no_trail.
    + destruct y as [|c y]; [exact I |].
      change (lit "v") with [118%N] in Hv. cbn [PyStr.startswith] in Hv.
      rewrite andb_true_r in Hv. exact Hv.
  - intros (Hlead & Htrail & Hv). unfold normalize_tag.
    assert (Hs : PyStr.strip y = y).
    { unfold PyStr.strip. rewrite lstrip_by_id by exact Hlead.
      apply rstrip_by_id, Htrail. }
    rewrite Hs.
    assert (Hc : forall p, PyStr.startswith (118%N :: p) y = false).
    { intros p. destruct y as [|c y]; [reflexivity |].
      unfold no_lead in Hv. cbn [PyStr.startswith]. rewrite Hv. reflexivity. }
    rewrite (sub_anchored_miss (lit "version/") y) by apply Hc.
    apply sub_anchored_miss, Hc.
Qed.

(** C1, as stated, fails: a tag with two leading [v] keeps one of them
    after the first normalization and loses it in the second. *)
Lemma normalize_tag_not_idempotent :
  normalize_tag (normalize_tag (lit "vv1.0")) <> normalize_tag (lit "vv1.0").
Proof. vm_compute. discriminate. Qed.

(** C1, amended: normalizing a second time changes nothing exactly when
    the normalized value begins neither with whitespace nor with [v]. *)
Theorem normalize_tag_idempotent_iff (x : str) :
  normalize_tag (normalize_tag x) = normalize_tag x <-> settled (normalize_tag x).
Proof.
  rewrite normalize_tag_fixed_iff. unfold settled.
  pose proof (normalize_tag_no_trail x). tauto.
Qed.

Lemma normalize_tag_steps_iff (tag out : str) :
  normalize_steps tag out <-> normalize_tag tag = out.
Proof.
  unfold normalize_steps, normalize_tag. split.
  - intros (t1 & t2 & H1 & H2 & H3).
    apply trims_strip in H1 as ->.
    apply strips_one_sub_anchored in H2 as ->.
    apply strips_one_sub_anchored in H3 as ->. reflexivity.
  - intros <-. eexists _, _. split; [apply strip_trims |].
    split; apply sub_anchored_strips.
Qed.

Lemma normalize_tag_blank (tag : str) : all_space tag -> normalize_tag tag = [].
Proof.
  intros H. unfold normalize_tag, PyStr.strip.
  rewrite lstrip_by_all by exact H. reflexivity.
Qed.

(** C7: the normalizer is exactly "trim, strip one leading [version/],
    then strip one leading [v]", nothing else; the four examples of the
    specification; blank input gives the empty string. *)
Theorem normalize_tag_spec :
  (forall tag out, normalize_steps tag out <-> normalize_tag tag = out)
  /\ normalize_tag (lit "version/v1.2.3") = lit "1.2.3"
  /\ normalize_tag (lit "v1.2.3") = lit "1.2.3"
  /\ normalize_tag (lit "1.2.3") = lit "1.2.3"
  /\ normalize_tag (lit "  v2.0  ") = lit "2.0"
  /\ (forall tag, all_space tag -> normalize_tag tag = []).
Proof.
  split; [exact normalize_tag_steps_iff |].
  repeat (split; [vm_compute; reflexivity |]).
  exact normalize_tag_blank.
Qed.

Lemma normalize_tag_spec_witness :
  all_space (lit "  ") /\ normalize_tag (lit "  ") = [].
Proof.
  assert (H : all_space (lit "  ")) by (repeat constructor).
  split; [exact H |].
  exact (proj2 (proj2 (proj2 (proj2 (proj2 normalize_tag_spec)))) (lit "  ") H).
Defined.

(** ** The digest object *)

Lemma absorb_fuel (f1 f2 : nat) (h : Hashlib.chain) (d : list byte) :
  (length d <= f1)%nat -> (length d <= f2)%nat ->
  Hashlib.absorb f1 h d = Hashlib.absorb f2 h d.
Proof.
  revert f2 h d. induction f1 as [|f1 IH]; intros f2 h d H1 H2.
  - destruct d; [|simpl in H1; lia]. destruct f2; reflexivity.
  - simpl. destruct (length d <? 64)%nat eqn:Hlt.
    + destruct f2; [reflexivity | simpl; rewrite Hlt; reflexivity].
    + apply Nat.ltb_ge in Hlt. destruct f2 as [|f2]; [lia |].
      simpl. replace (length d <? 64)%nat with false
        by (symmetry; apply Nat.ltb_ge; lia).
      apply IH; rewrite length_drop; lia.
Qed.

(** Absorbing [d ++ e] is absorbing [d], then [e] after what [d] left
    pending. *)
Lemma absorb_app (f : nat) (h : Hashlib.chain) (d e : list byte) :
  (length d <= f)%nat ->
  Hashlib.absorb (length (d ++ e)) h (d ++ e) =
  let '(h1, r1) := Hashlib.absorb f h d in
  Hashlib.absorb (length (r1 ++ e)) h1 (r1 ++ e).
Proof.
  revert h d. induction f as [|f IH]; intros h d Hf.
  - destruct d; [reflexivity | simpl in Hf; lia].
  - cbn [Hashlib.absorb]. destruct (length d <? 64)%nat eqn:Hlt; [reflexivity |].
    apply Nat.ltb_ge in Hlt.
    specialize (IH (Hashlib.compress h (take 64 d)) (drop 64 d)).
    rewrite <- IH by (rewrite length_drop; lia).
    destruct (length (d ++ e)) as [|k] eqn:Hk;
      [rewrite length_app in Hk; lia |].
    cbn [Hashlib.absorb]. rewrite Hk.
    replace (Datatypes.S k <? 64)%nat with false
      by (symmetry; apply Nat.ltb_ge; rewrite length_app in Hk; lia).
    rewrite take_app_le, drop_app_le by lia.
    apply absorb_fuel.
    + rewrite length_app, length_drop. rewrite length_app in Hk. lia.
    + reflexivity.
Qed.

Lemma update_app (m : Hashlib.md5) (a b : list byte) :
  Hashlib.update (Hashlib.update m a) b = Hashlib.update m (a ++ b).
Proof.
  destruct m as [h p c]. unfold Hashlib.update. cbn [Hashlib.md5_chain
    Hashlib.md5_pending Hashlib.md5_count].
  rewrite (app_assoc p a b).
  rewrite (absorb_app (length (p ++ a)) h (p ++ a) b) by lia.
  destruct (Hashlib.absorb (length (p ++ a)) h (p ++ a)) as [h1 r1].
  cbn [Hashlib.md5_chain Hashlib.md5_pending Hashlib.md5_count].
  destruct (Hashlib.absorb (length (r1 ++ b)) h1 (r1 ++ b)) as [h2 r2].
  f_equal. rewrite length_app. lia.
Qed.

Lemma fold_update (chunks : list (list byte)) (m : Hashlib.md5) (a : list byte) :
  fold_left Hashlib.update chunks (Hashlib.update m a) =
  Hashlib.update m (a ++ concat chunks).
Proof.
  revert a. induction chunks as [|c cs IH]; intros a; simpl.
  - rewrite app_nil_r. reflexivity.
  - rewrite update_app, IH, app_assoc. reflexivity.
Qed.

Lemma fold_update_new (chunks : list (list byte)) :
  fold_left Hashlib.update chunks Hashlib.new = Hashlib.md5_of (concat chunks).
Proof. exact (fold_update chunks Hashlib.new []). Qed.

(** The read loop sees the body only through its bytes. *)
Lemma read_all_bytes (body : list read_event) (m : Hashlib.md5)
    (a : list byte) (total : Z) :
  read_all body (Hashlib.update m a) total =
  match body_bytes body with
  | Some bs => Some (Hashlib.update m (a ++ bs), total + Z.of_nat (length bs))
  | None => None
  end.
Proof.
  revert a total. induction body as [|ev body IH]; intros a total.
  - simpl. rewrite app_nil_r, Z.add_0_r. reflexivity.
  - destruct ev as [[|b chunk]|].
    + simpl. rewrite app_nil_r, Z.add_0_r. reflexivity.
    + cbn [read_all body_bytes]. rewrite update_app, IH.
      destruct (body_bytes body) as [bs|]; [|reflexivity].
      rewrite <- app_assoc. do 2 f_equal. rewrite length_app. lia.
    + reflexivity.
Qed.

Lemma read_all_new (body : list read_event) :
  read_all body Hashlib.new 0 =
  match body_bytes body with
  | Some bs => Some (Hashlib.md5_of bs, Z.of_nat (length bs))
  | None => None
  end.
Proof. exact (read_all_bytes body Hashlib.new [] 0). Qed.

Lemma body_bytes_chunks (chunks : list (list byte)) :
  Forall (fun c => c <> []) chunks ->
  body_bytes (List.map Chunk chunks) = Some (concat chunks).
Proof.
  induction 1 as [|c cs Hc _ IH]; [reflexivity |].
  destruct c as [|b c]; [congruence |].
  cbn [List.map body_bytes concat]. rewrite IH. reflexivity.
Qed.

(** ** [Request] *)

Lemma Request_accepts (refused : bool) (url : str)
    (headers : list (str * str)) :
  accepted refused url = true ->
  exists req, Urllib.Request refused url headers = ([], Ok req).
Proof.
  unfold accepted, request_url, has_scheme, Urllib.Request.
  destruct (Urllib.splittag (Urllib.unwrap url)) as [full frag]. cbn [fst snd].
  destruct (Urllib.splittype full) as [[scheme data]|]; [|discriminate].
  cbn [andb]. intros H.
  destruct (Urllib.host_plain (Urllib.full_url_of full frag)), refused;
    try discriminate H; eexists; reflexivity.
Qed.

Lemma Request_rejects (refused : bool) (url : str)
    (headers : list (str * str)) :
  has_scheme url = false ->
  Urllib.Request refused url headers =
  ([], Raise (UnknownUrlType (fst (Urllib.splittag (Urllib.unwrap url))))).
Proof.
  unfold has_scheme, Urllib.Request.
  destruct (Urllib.splittag (Urllib.unwrap url)) as [full frag]. simpl.
  destruct (Urllib.splittype full) as [[scheme data]|]; [discriminate |].
  reflexivity.
Qed.

(** The constructor fails in one of its two checks or builds the
    request; in no case does it leave an event. *)
Lemma Request_refuses (refused : bool) (url : str)
    (headers : list (str * str)) :
  has_scheme url = true -> accepted refused url = false ->
  Urllib.Request refused url headers
  = ([], Raise (UrlParseError (request_url url)))
  /\ refused = true /\ Urllib.host_plain (request_url url) = false.
Proof.
  unfold accepted, request_url, has_scheme, Urllib.Request.
  destruct (Urllib.splittag (Urllib.unwrap url)) as [full frag]. cbn [fst snd].
  destruct (Urllib.splittype full) as [[scheme data]|]; [|discriminate].
  cbn [andb]. intros _ H.
  destruct (Urllib.host_plain (Urllib.full_url_of full frag)), refused;
    try discriminate H; repeat split.
Qed.

Lemma Request_cases (refused : bool) (url : str)
    (headers : list (str * str)) :
  (accepted refused url = true
   /\ exists req, Urllib.Request refused url headers = ([], Ok req))
  \/ (accepted refused url = false
      /\ exists e, Urllib.Request refused url headers = ([], Raise e)).
Proof.
  destruct (accepted refused url) eqn:Hacc.
  - left. split; [reflexivity |]. apply Request_accepts, Hacc.
  - right. split; [reflexivity |]. destruct (has_scheme url) eqn:Hs.
    + destruct (Request_refuses refused url headers Hs Hacc) as (-> & _).
      eexists. reflexivity.
    + rewrite (Request_rejects refused url headers Hs). eexists. reflexivity.
Qed.

Lemma accepted_has_scheme (refused : bool) (url : str) :
  accepted refused url = true -> has_scheme url = true.
Proof. unfold accepted. intros H. apply andb_true_iff in H as [H _]. exact H. Qed.

Lemma accepted_answer (refused : bool) (url : str) :
  has_scheme url = true -> refused = false -> accepted refused url = true.
Proof.
  unfold accepted. intros -> ->. cbn [andb negb]. apply orb_true_r.
Qed.

Lemma accepted_plain (refused : bool) (url : str) :
  has_scheme url = true -> Urllib.host_plain (request_url url) = true ->
  accepted refused url = true.
Proof. unfold accepted. intros -> ->. reflexivity. Qed.

Lemma page_sent_answer (w : world) (headers : list (str * str)) (timeout : Q)
    (url : str) :
  has_scheme url = true ->
  index_get w url headers timeout <> IndexRefused ->
  page_sent w headers timeout url = true.
Proof.
  intros Hurl Hget. apply accepted_answer; [exact Hurl |].
  destruct (index_get w url headers timeout); try reflexivity. congruence.
Qed.

(** The answers of the network that are no refusal. *)
Lemma probe_sent_answer (w : world) (url : str) (timeout : Q) :
  has_scheme url = true ->
  probe_get w url timeout <> Refused ->
  probe_sent w url timeout = true.
Proof.
  intros Hurl Hget. apply accepted_answer; [exact Hurl |].
  destruct (probe_get w url timeout); try reflexivity. congruence.
Qed.

(** ** ContentProbe *)

Lemma fetch_status_md5_bytes_sent (w : world) (url : str) (timeout : Q) :
  probe_sent w url timeout = true ->
  fetch_status_md5_bytes w url timeout =
  ([Get url probe_headers], Ok (probe_result (probe_get w url timeout))).
Proof.
  intros Hurl. unfold fetch_status_md5_bytes.
  destruct (Request_accepts _ url probe_headers Hurl) as (req & ->).
  cbn [bind emit app]. unfold probe_result.
  destruct (probe_get w url timeout) as [status body|code body| |].
  - rewrite read_all_new. destruct (body_bytes body); reflexivity.
  - rewrite read_all_new. destruct (body_bytes body) as [bs|]; [|reflexivity].
    destruct bs as [|b bs]; [reflexivity |].
    replace (Z.of_nat (length (b :: bs)) >? 0) with true; [reflexivity |].
    symmetry. apply Z.gtb_lt. simpl. lia.
  - reflexivity.
  - reflexivity.
Qed.

(** A probe that is not sent raises the [ValueError] of the constructor
    and leaves no event. *)
Lemma fetch_status_md5_bytes_unsent (w : world) (url : str) (timeout : Q) :
  probe_sent w url timeout = false ->
  exists e, fetch_status_md5_bytes w url timeout = ([], Raise e).
Proof.
  intros Hurl. unfold fetch_status_md5_bytes.
  destruct (has_scheme url) eqn:Hs.
  - destruct (Request_refuses _ url probe_headers Hs Hurl) as (-> & _).
    eexists. reflexivity.
  - rewrite (Request_rejects _ url probe_headers Hs). eexists. reflexivity.
Qed.

(** With a scheme and any answer of the network but a refusal. *)
Lemma fetch_status_md5_bytes_answered (w : world) (url : str) (timeout : Q) :
  has_scheme url = true ->
  probe_get w url timeout <> Refused ->
  fetch_status_md5_bytes w url timeout =
  ([Get url probe_headers], Ok (probe_result (probe_get w url timeout))).
Proof.
  intros Hurl Hget. apply fetch_status_md5_bytes_sent.
  apply probe_sent_answer; assumption.
Qed.

(** A probe that returns was sent, left one request in the trace, and
    its result depends on the answer of the network only. *)
Lemma fetch_status_md5_bytes_returned (w : world) (url : str) (timeout : Q)
    (t : trace) (r : Z * str * Z) :
  fetch_status_md5_bytes w url timeout = (t, Ok r) ->
  has_scheme url = true /\ t = [Get url probe_headers]
  /\ r = probe_result (probe_get w url timeout).
Proof.
  destruct (probe_sent w url timeout) eqn:Hurl.
  - rewrite fetch_status_md5_bytes_sent by exact Hurl.
    intros [= <- <-]. repeat split.
    exact (accepted_has_scheme _ _ Hurl).
  - destruct (fetch_status_md5_bytes_unsent w url timeout Hurl) as (e & ->).
    discriminate.
Qed.

Lemma fetch_status_md5_bytes_returned_sent (w : world) (url : str)
    (timeout : Q) (t : trace) (r : Z * str * Z) :
  fetch_status_md5_bytes w url timeout = (t, Ok r) ->
  probe_sent w url timeout = true.
Proof.
  destruct (probe_sent w url timeout) eqn:Hurl; [reflexivity |].
  destruct (fetch_status_md5_bytes_unsent w url timeout Hurl) as (e & ->).
  discriminate.
Qed.

(** C8: feeding a body to the digest chunk by chunk gives the digest of
    the whole body hashed at once, for every way of cutting it into
    chunks; so the probe of a response whose reads return these chunks
    reports the one-shot digest and the total length. *)
Theorem chunked_digest_is_one_shot (chunks : list (list byte)) :
  Hashlib.hexdigest (fold_left Hashlib.update chunks Hashlib.new)
  = Hashlib.hexdigest (Hashlib.md5_of (concat chunks))
  /\ (Forall (fun c => c <> []) chunks ->
      forall w url timeout status,
        has_scheme url = true ->
        probe_get w url timeout = Opened status (List.map Chunk chunks) ->
        snd (fetch_status_md5_bytes w url timeout)
        = Ok (status, Hashlib.hexdigest (Hashlib.md5_of (concat chunks)),
              Z.of_nat (length (concat chunks)))).
Proof.
  split.
  - rewrite fold_update_new. reflexivity.
  - intros Hne w url timeout status Hurl Hget.
    rewrite fetch_status_md5_bytes_answered by (congruence || exact Hurl).
    rewrite Hget. cbn [snd probe_result].
    rewrite body_bytes_chunks by exact Hne. reflexivity.
Qed.

Lemma chunked_digest_is_one_shot_witness :
  snd (fetch_status_md5_bytes
         (probe_world (Opened 200 [Chunk (bytes_lit "ab"); Chunk (bytes_lit "c")]))
         example_url 30)
  = Ok (200, Hashlib.hexdigest (Hashlib.md5_of (bytes_lit "abc")), 3).
Proof.
  apply (proj2 (chunked_digest_is_one_shot [bytes_lit "ab"; bytes_lit "c"])).
  - repeat constructor; discriminate.
  - vm_compute. reflexivity.
  - reflexivity.
Defined.




(** C9 fails on the code: [Request] is built before the [try], so for a
    URL without a scheme its [ValueError] leaves the probe, whatever the
    network would have answered. *)
Theorem probe_raises_without_scheme (w : world) (timeout : Q) :
  fetch_status_md5_bytes w schemeless_url timeout
  = ([], Raise (UnknownUrlType schemeless_url)).
Proof. reflexivity. Qed.

(** What does hold: a probe that is sent always returns a triple, also
    when reading the body of an error fails half-way. *)
Lemma probe_returns_when_sent (w : world) (url : str) (timeout : Q) :
  probe_sent w url timeout = true ->
  exists r, snd (fetch_status_md5_bytes w url timeout) = Ok r.
Proof.
  intros Hurl. rewrite fetch_status_md5_bytes_sent by exact Hurl.
  eexists. reflexivity.
Qed.

Lemma probe_error_body_fails (w : world) (url : str) (timeout : Q)
    (code : Z) (body : list read_event) :
  has_scheme url = true ->
  probe_get w url timeout = OpenHTTPError (Some code) body ->
  body_bytes body = None ->
  snd (fetch_status_md5_bytes w url timeout) = Ok (code, lit "-", 0).
Proof.
  intros Hurl Hget Hbody.
  rewrite fetch_status_md5_bytes_answered by (congruence || exact Hurl).
  rewrite Hget. cbn [snd probe_result]. rewrite Hbody. reflexivity.
Qed.

(** ** ScanDriver *)


Lemma requests_of_app (t1 t2 : trace) :
  requests_of (t1 ++ t2) = requests_of t1 ++ requests_of t2.
Proof. apply omap_app. Qed.

Lemma stdout_of_app (t1 t2 : trace) :
  stdout_of (t1 ++ t2) = stdout_of t1 ++ stdout_of t2.
Proof. apply omap_app. Qed.

Lemma stdout_of_checking_events (a : args) (n i : Z) (ver : str) :
  stdout_of (checking_events a n i ver) = [].
Proof. unfold checking_events. destruct (arg_verbose a); reflexivity. Qed.

Lemma stdout_of_pause_events (a : args) : stdout_of (pause_events a) = [].
Proof. unfold pause_events. destruct (negb _); reflexivity. Qed.

Lemma requests_of_checking_events (a : args) (n i : Z) (ver : str) :
  requests_of (checking_events a n i ver) = [].
Proof. unfold checking_events. destruct (arg_verbose a); reflexivity. Qed.

Lemma requests_of_pause_events (a : args) : requests_of (pause_events a) = [].
Proof. unfold pause_events. destruct (negb _); reflexivity. Qed.

Lemma pause_made (a : args) (w : world) :
  pause_ok a w = true -> pause a w = (pause_events a, Ok tt).
Proof.
  unfold pause_ok, pause, pause_events, when, time_sleep.
  destruct (Qle_bool (arg_sleep a) 0), (sleep_overflows w (arg_sleep a));
    try discriminate; reflexivity.
Qed.

Lemma pause_fails (a : args) (w : world) :
  pause_ok a w = false -> pause a w = ([], Raise OverflowError).
Proof.
  unfold pause_ok, pause, when, time_sleep.
  destruct (Qle_bool (arg_sleep a) 0), (sleep_overflows w (arg_sleep a));
    try discriminate; reflexivity.
Qed.

(** One iteration of the loop, for a probe that returns. *)
Lemma scan_cons_pause (a : args) (w : world) (base_url : str) (n i hits : Z)
    (ver : str) (rest : list str) (t : trace) (status : Z) (md5_hex : str)
    (nbytes : Z) :
  fetch_status_md5_bytes w (js_url_of base_url ver) (arg_timeout a)
  = (t, Ok (status, md5_hex, nbytes)) ->
  scan a w base_url n i hits (ver :: rest) =
  let row := Stdout (tsv_row ver status md5_hex nbytes (js_url_of base_url ver)) in
  let continue :=
    let* _ := pause a w in
    scan a w base_url n (i + 1) (if status =? 200 then hits + 1 else hits) rest in
  after (checking_events a n i ver ++ t)
        (if (status =? 404) && negb (arg_include_404 a) then continue
         else if arg_all a then after [row] continue
         else if status =? 200 then ([row], Ok 0)
         else continue).
Proof.
  intros Hprobe. cbn [scan]. rewrite Hprobe.
  unfold report, when, after, checking_events, pause, when, time_sleep.
  cbn [bind emit ret raise].
  destruct (arg_verbose a), ((status =? 404) && negb (arg_include_404 a)),
    (arg_all a), (status =? 200), (negb (Qle_bool (arg_sleep a) 0)),
    (sleep_overflows w (arg_sleep a));
    repeat match goal with
           | |- context [scan ?a ?w ?b ?n ?i ?h ?r] =>
               destruct (scan a w b n i h r)
           end;
    cbn [fst snd app]; rewrite <- ?app_assoc; reflexivity.
Qed.

(** The same when the pause can be made. *)
Lemma scan_cons (a : args) (w : world) (base_url : str) (n i hits : Z)
    (ver : str) (rest : list str) (t : trace) (status : Z) (md5_hex : str)
    (nbytes : Z) :
  pause_ok a w = true ->
  fetch_status_md5_bytes w (js_url_of base_url ver) (arg_timeout a)
  = (t, Ok (status, md5_hex, nbytes)) ->
  scan a w base_url n i hits (ver :: rest) =
  let row := Stdout (tsv_row ver status md5_hex nbytes (js_url_of base_url ver)) in
  let continue :=
    after (pause_events a)
          (scan a w base_url n (i + 1)
                (if status =? 200 then hits + 1 else hits) rest) in
  after (checking_events a n i ver ++ t)
        (if (status =? 404) && negb (arg_include_404 a) then continue
         else if arg_all a then after [row] continue
         else if status =? 200 then ([row], Ok 0)
         else continue).
Proof.
  intros Hpause Hprobe. rewrite (scan_cons_pause _ _ _ _ _ _ _ _ _ _ _ _ Hprobe).
  cbv zeta. rewrite (pause_made a w Hpause). unfold after. cbn [bind fst snd].
  destruct (scan a w base_url n (i + 1) _ rest) as [t' r]. reflexivity.
Qed.

(** And when it cannot: the iteration ends in the [OverflowError] of
    [time.sleep], unless it found its hit. *)
Lemma scan_cons_overflow (a : args) (w : world) (base_url : str) (n i hits : Z)
    (ver : str) (rest : list str) (t : trace) (status : Z) (md5_hex : str)
    (nbytes : Z) :
  pause_ok a w = false ->
  fetch_status_md5_bytes w (js_url_of base_url ver) (arg_timeout a)
  = (t, Ok (status, md5_hex, nbytes)) ->
  scan a w base_url n i hits (ver :: rest) =
  let row := Stdout (tsv_row ver status md5_hex nbytes (js_url_of base_url ver)) in
  after (checking_events a n i ver ++ t)
        (if (status =? 404) && negb (arg_include_404 a)
         then ([], Raise OverflowError)
         else if arg_all a then ([row], Raise OverflowError)
         else if status =? 200 then ([row], Ok 0)
         else ([], Raise OverflowError)).
Proof.
  intros Hpause Hprobe. rewrite (scan_cons_pause _ _ _ _ _ _ _ _ _ _ _ _ Hprobe).
  cbv zeta. rewrite (pause_fails a w Hpause). reflexivity.
Qed.








(** ** The driver as a whole *)

Lemma main_eq (fuel : nat) (a : args) (w : world) :
  main fuel a w =
  let* base_url := read_base_url a w in
  run_with_base fuel a w (PyStr.rstrip_slash base_url).
Proof.
  unfold main, read_base_url, run_with_base.
  assert (Htail : forall base_url : str,
    match PyStr.rstrip_slash base_url with
    | [] => let* _ := emit (Stderr NoBaseUrl) in ret 2
    | _ :: _ =>
        match github_fetch_release_tags fuel w (arg_repo a) (arg_timeout a)
                match GITHUB_TOKEN w with
                | Some ((_ :: _) as t) => Some t
                | _ => None
                end with
        | (t, Ok versions) =>
            let* _ := (t, Ok tt) in
            let* _ := emit (Stdout tsv_header) in
            scan a w (PyStr.rstrip_slash base_url)
                 (Z.of_nat (length versions)) 1 0 versions
        | (t, Raise e) =>
            (t ++ [Stderr (FetchFailed (arg_repo a) e); Stderr TokenTip], Ok 1)
        | (t, OutOfFuel) => (t, OutOfFuel)
        end
    end =
    match PyStr.rstrip_slash base_url with
    | [] => ([Stderr NoBaseUrl], Ok 2)
    | _ :: _ =>
        match github_fetch_release_tags fuel w (arg_repo a) (arg_timeout a)
                (env_token w) with
        | (t, Ok versions) =>
            after (t ++ [Stdout tsv_header])
                  (scan a w (PyStr.rstrip_slash base_url)
                        (Z.of_nat (length versions)) 1 0 versions)
        | (t, Raise e) =>
            (t ++ [Stderr (FetchFailed (arg_repo a) e); Stderr TokenTip], Ok 1)
        | (t, OutOfFuel) => (t, OutOfFuel)
        end
    end).
  { intros base_url. destruct (PyStr.rstrip_slash base_url); [reflexivity |].
    unfold env_token.
    destruct (github_fetch_release_tags _ _ _ _ _) as [t [versions|e|]];
      try reflexivity.
    cbn [bind emit]. destruct (scan _ _ _ _ _ _ _) as [t' r].
    unfold after. cbn [fst snd app]. rewrite <- app_assoc. reflexivity. }
  destruct (PyStr.strip (default [] (arg_base_url a))) as [|c b].
  - cbn [bind emit]. destruct (input_line w) as [line|]; [|reflexivity].
    cbn [bind ret raise]. rewrite Htail. reflexivity.
  - cbn [bind ret]. rewrite Htail. reflexivity.
Qed.

Lemma read_base_url_supplied (a : args) (w : world) (s : str) :
  supplied_base_url a w = Some s ->
  exists pre, read_base_url a w = (pre, Ok (PyStr.strip s))
              /\ requests_of pre = [].
Proof.
  unfold supplied_base_url, read_base_url. intros Hs.
  destruct (PyStr.strip (default [] (arg_base_url a))) as [|c b] eqn:Harg.
  - rewrite Hs. exists [Prompt prompt_text]. split; reflexivity.
  - rewrite Hs in Harg. simpl in Harg. rewrite Harg.
    exists []. split; reflexivity.
Qed.

Lemma main_supplied (fuel : nat) (a : args) (w : world) (s : str) :
  supplied_base_url a w = Some s ->
  exists pre, main fuel a w = after pre (run_with_base fuel a w (base_of s))
              /\ requests_of pre = [].
Proof.
  intros Hs. destruct (read_base_url_supplied a w s Hs) as (pre & Hread & Hpre).
  exists pre. split; [|exact Hpre].
  rewrite main_eq, Hread. unfold base_of, after. cbn [bind].
  destruct (run_with_base _ _ _ _). reflexivity.
Qed.

Lemma all_slashes_rev (m : str) :
  Forall (fun c => c = 47%N) m -> Forall (fun c => (47 =? c)%N = true) (rev m).
Proof.
  intros H. apply List.Forall_rev. eapply Forall_impl; [exact H |].
  intros c ->. reflexivity.
Qed.

Lemma unusable_base_of (s : str) : unusable s <-> base_of s = [].
Proof.
  unfold base_of. split.
  - intros (l & m & r & -> & Hl & Hr & Hm).
    destruct m as [|c m].
    + unfold PyStr.strip. rewrite lstrip_by_all; [reflexivity |].
      apply Forall_app. split; assumption.
    + assert (Ht : trims (l ++ (c :: m) ++ r) (c :: m)).
      { exists l, r. repeat split; try assumption.
        - inversion Hm; subst. reflexivity.
        - unfold no_trail. pose proof (all_slashes_rev _ Hm) as Hrev.
          destruct (rev (c :: m)) as [|d u]; [exact I |].
          inversion Hrev as [|? ? Hd _]; subst.
          apply N.eqb_eq in Hd. subst d. reflexivity. }
      apply trims_strip in Ht. rewrite <- Ht.
      unfold PyStr.rstrip_slash, PyStr.rstrip_by.
      rewrite lstrip_by_all; [reflexivity |]. apply all_slashes_rev, Hm.
  - intros Hbase. destruct (strip_trims s) as (l & r & Hs & Hl & Hr & _).
    destruct (rstrip_by_split (N.eqb 47) (PyStr.strip s)) as (m & Hm & Hall).
    unfold PyStr.rstrip_slash in Hbase. rewrite Hbase in Hm. simpl in Hm.
    exists l, m, r. repeat split; try assumption.
    + rewrite <- Hm. exact Hs.
    + eapply Forall_impl; [exact Hall |]. intros c Hc.
      apply N.eqb_eq in Hc. symmetry. exact Hc.
Qed.





(** ** Find-first mode and [--include-404] *)

Lemma scan_find_first_include_404 (b : option str) (r : str) (t s : Q)
    (v : bool) (w : world) (base_url : str) (n : Z) (versions : list str) :
  forall i hits,
    scan (Args b r t s false true v) w base_url n i hits versions
    = scan (Args b r t s false false v) w base_url n i hits versions.
Proof.
  induction versions as [|ver rest IH]; intros i hits; [reflexivity |].
  cbn [scan arg_verbose arg_timeout arg_sleep].
  destruct (fetch_status_md5_bytes w (js_url_of base_url ver) t)
    as [tr [[[status md5_hex] nbytes]|e|]]; [|reflexivity..].
  unfold report. cbn [bind arg_include_404 arg_all negb].
  rewrite andb_false_r, andb_true_r.
  destruct (Z.eqb_spec status 404) as [->|Hne].
  - change (404 =? 200) with false. cbn [bind ret]. rewrite IH. reflexivity.
  - destruct (status =? 200); cbn [bind ret emit]; rewrite ?IH; reflexivity.
Qed.

(** C10: in find-first mode [--include-404] changes nothing: the events
    of the run, the lines on standard output among them, and its outcome
    are the same with and without it. *)
Theorem include_404_irrelevant_in_find_first (fuel : nat) (base_url : option str)
    (repo : str) (timeout sleep : Q) (verbose : bool) (w : world) :
  main fuel (Args base_url repo timeout sleep false true verbose) w
  = main fuel (Args base_url repo timeout sleep false false verbose) w.
Proof.
  rewrite !main_eq. unfold read_base_url. cbn [arg_base_url].
  assert (H : forall base,
    run_with_base fuel (Args base_url repo timeout sleep false true verbose) w base
    = run_with_base fuel (Args base_url repo timeout sleep false false verbose) w base).
  { intros base. unfold run_with_base. cbn [arg_repo arg_timeout].
    destruct base as [|c base]; [reflexivity |].
    destruct (github_fetch_release_tags _ _ _ _ _) as [t [versions|e|]];
      try reflexivity.
    rewrite scan_find_first_include_404. reflexivity. }
  destruct (PyStr.strip (default [] base_url)) as [|c b].
  - cbn [bind emit]. destruct (input_line w); [|reflexivity].
    cbn [bind ret]. rewrite H. reflexivity.
  - cbn [bind ret]. rewrite H. reflexivity.
Qed.

(** ** ReleaseIndexClient: the version list *)







(** ** ReleaseIndexClient: pagination *)

Lemma span_until_stop (c : N) (a b : str) :
  lacks c a = true -> span_until c (a ++ c :: b) = (a, c :: b).
Proof.
  induction a as [|x a IH]; simpl; intros H.
  - rewrite N.eqb_refl. reflexivity.
  - apply andb_true_iff in H as [Hx Ha]. apply negb_true_iff in Hx.
    rewrite Hx, (IH Ha). reflexivity.
Qed.

Lemma split_lacks (c : N) (a : str) : lacks c a = true -> PyStr.split c a = [a].
Proof.
  induction a as [|x a IH]; simpl; intros H; [reflexivity |].
  apply andb_true_iff in H as [Hx Ha]. apply negb_true_iff in Hx.
  rewrite Hx, (IH Ha). reflexivity.
Qed.

Lemma split_at_sep (c : N) (a b : str) :
  lacks c a = true -> PyStr.split c (a ++ c :: b) = a :: PyStr.split c b.
Proof.
  induction a as [|x a IH]; simpl; intros H.
  - rewrite N.eqb_refl. reflexivity.
  - apply andb_true_iff in H as [Hx Ha]. apply negb_true_iff in Hx.
    rewrite Hx, (IH Ha). reflexivity.
Qed.

Lemma lacks_app (c : N) (a b : str) :
  lacks c (a ++ b) = lacks c a && lacks c b.
Proof. apply forallb_app. Qed.

Lemma link_entry_lacks_comma (e : str * str) :
  well_formed_entry e -> lacks 44 (link_entry e) = true.
Proof.
  intros (_ & _ & _ & Hu & _ & Hr). unfold link_entry.
  rewrite !lacks_app, Hu, Hr. reflexivity.
Qed.

(** The fields of a header are its entries, all but the first with the
    blank that follows the comma. *)
Lemma split_link_header (e : str * str) (es : list (str * str)) (pre : str) :
  lacks 44 pre = true ->
  Forall well_formed_entry (e :: es) ->
  PyStr.split 44 (pre ++ link_header (e :: es))
  = (pre ++ link_entry e) :: List.map (fun e' => 32%N :: link_entry e') es.
Proof.
  revert e pre. induction es as [|e' es IH]; intros e pre Hpre Hwf.
  - unfold link_header. cbn [List.map PyStr.join].
    apply split_lacks. rewrite lacks_app, Hpre.
    apply link_entry_lacks_comma. inversion Hwf; assumption.
  - inversion Hwf as [|? ? He Hes]; subst.
    unfold link_header in *. cbn [List.map PyStr.join].
    change (lit ", ") with ([44%N] ++ [32%N]).
    rewrite <- !app_assoc. rewrite (app_assoc pre).
    cbn [app]. rewrite split_at_sep
      by (rewrite lacks_app, Hpre; apply link_entry_lacks_comma, He).
    f_equal. apply (IH e' [32%N]); [reflexivity | exact Hes].
Qed.

Lemma strip_link_entry (e : str * str) (l : str) :
  all_space l -> PyStr.strip (l ++ link_entry e) = link_entry e.
Proof.
  intros Hl. symmetry. apply trims_strip. exists l, [].
  rewrite app_nil_r. repeat split; try assumption; try constructor.
  unfold no_trail, link_entry. rewrite !app_assoc, rev_app_distr. reflexivity.
Qed.

Lemma match_link_entry (e : str * str) :
  well_formed_entry e -> match_link_part (link_entry e) = Some e.
Proof.
  destruct e as [u r]. intros (Hu & Hr & Hgt & _ & Hq & _).
  cbn [fst snd] in *. unfold link_entry. cbn [fst snd].
  change (lit "<" ++ u ++ lit ">; rel=" ++ [34%N] ++ r ++ [34%N])
    with (60%N :: (u ++ 62%N :: 59%N :: 32%N
                     :: (lit "rel=" ++ [34%N]) ++ r ++ [34%N])).
  unfold match_link_part.
  change (PyStr.startswith (lit "<") (60%N :: ?s)) with true. cbv iota.
  change (drop 1 (60%N :: ?s)) with s.
  rewrite (span_until_stop 62 u _ Hgt).
  replace (PyStr.eqb u []) with false
    by (symmetry; apply bool_decide_eq_false; exact Hu).
  change (drop 2 (62%N :: 59%N :: ?s)) with s.
  change (PyStr.startswith (lit ">;") (62%N :: 59%N :: ?s)) with true.
  cbn [negb andb]. cbv iota.
  change (PyStr.lstrip_by PyStr.isspace
            (32%N :: (lit "rel=" ++ [34%N]) ++ r ++ [34%N]))
    with ((lit "rel=" ++ [34%N]) ++ r ++ [34%N]).
  replace (PyStr.startswith (lit "rel=" ++ [34%N])
             ((lit "rel=" ++ [34%N]) ++ r ++ [34%N])) with true
    by (symmetry; apply startswith_spec; eauto).
  change (drop 5 ((lit "rel=" ++ [34%N]) ++ r ++ [34%N])) with (r ++ [34%N]).
  rewrite (span_until_stop 34 r [] Hq).
  replace (PyStr.eqb r []) with false
    by (symmetry; apply bool_decide_eq_false; exact Hr).
  reflexivity.
Qed.

Lemma parse_link_header_fold (link : str) :
  parse_link_header link = fold_left link_step (PyStr.split 44 link) ∅.
Proof. reflexivity. Qed.

Lemma link_step_entry (out : gmap str str) (e : str * str) (l : str) :
  all_space l -> well_formed_entry e ->
  link_step out (l ++ link_entry e) = <[snd e := fst e]> out.
Proof.
  intros Hl He. unfold link_step.
  rewrite strip_link_entry by exact Hl.
  rewrite match_link_entry by exact He. destruct e. reflexivity.
Qed.

Lemma parse_link_header_entries (entries : list (str * str)) :
  Forall well_formed_entry entries ->
  parse_link_header (link_header entries) = mapping_of entries.
Proof.
  intros Hwf. rewrite parse_link_header_fold. unfold mapping_of.
  destruct entries as [|e es]; [reflexivity |].
  change (link_header (e :: es)) with ([] ++ link_header (e :: es)).
  rewrite split_link_header by (reflexivity || exact Hwf).
  inversion Hwf as [|? ? He Hes]; subst. cbn [fold_left app].
  rewrite (link_step_entry ∅ e [] (List.Forall_nil _) He).
  generalize (<[snd e := fst e]> (∅ : gmap str str)). clear He Hwf.
  induction Hes as [|e' es He' _ IH]; intros m; [reflexivity |].
  cbn [List.map fold_left].
  assert (Hsp : all_space [32%N]) by (repeat constructor).
  rewrite (link_step_entry m e' [32%N] Hsp He'
           : link_step m (32%N :: link_entry e') = _).
  apply IH.
Qed.

Lemma match_link_part_url (part url rel : str) :
  match_link_part part = Some (url, rel) -> url <> [].
Proof.
  unfold match_link_part.
  destruct (PyStr.startswith (lit "<") part); [|discriminate].
  destruct (span_until 62 (drop 1 part)) as [u s2].
  destruct (PyStr.eqb u []) eqn:Hu; [discriminate |].
  apply bool_decide_eq_false in Hu.
  destruct (PyStr.startswith (lit ">;") s2); [|discriminate]. cbn [negb andb].
  destruct (PyStr.startswith _ _); [|discriminate].
  destruct (span_until 34 _) as [r s6].
  destruct (_ && _); [|discriminate].
  intros H. injection H as <- _. exact Hu.
Qed.

Lemma link_step_values (parts : list str) :
  forall out : gmap str str,
    (forall k v, out !! k = Some v -> v <> []) ->
    forall k v, fold_left link_step parts out !! k = Some v -> v <> [].
Proof.
  induction parts as [|part parts IH]; intros out Hout; [exact Hout |].
  cbn [fold_left]. apply IH. unfold link_step.
  destruct (match_link_part (PyStr.strip part)) as [[url rel]|] eqn:Hm;
    [|exact Hout].
  intros k v. rewrite lookup_insert. case_decide.
  - intros [= <-]. eapply match_link_part_url, Hm.
  - apply Hout.
Qed.

(** Every URL in the mapping is a non-empty string, so the test
    [while url] sees exactly whether a [next] entry is there. *)
Lemma parse_link_header_value (link rel url : str) :
  parse_link_header link !! rel = Some url -> url <> [].
Proof.
  rewrite parse_link_header_fold. apply link_step_values.
  intros k v. rewrite lookup_empty. discriminate.
Qed.

Lemma fetch_pages_done (fuel : nat) (w : world) (headers : list (str * str))
    (timeout : Q) (versions : list str) (seen : gset str) :
  fetch_pages fuel w headers timeout [] versions seen = ([], Ok versions).
Proof. destruct fuel; reflexivity. Qed.

(** One turn of the pagination loop on a page that arrives. *)
Lemma fetch_pages_page (fuel : nat) (w : world) (headers : list (str * str))
    (timeout : Q) (url : str) (data : list (option str)) (link : option str)
    (versions : list str) (seen : gset str) :
  url <> [] -> has_scheme url = true ->
  index_get w url headers timeout = IndexPage data link ->
  fetch_pages (S fuel) w headers timeout url versions seen
  = after [Get url headers; Sleep (5 # 100)]
      (fetch_pages fuel w headers timeout
         (default [] (parse_link_header (default [] link) !! lit "next"))
         (fst (fold_left add_release data (versions, seen)))
         (snd (fold_left add_release data (versions, seen)))).
Proof.
  intros Hne Hurl Hget. destruct url as [|c url]; [congruence |].
  cbn [fetch_pages].
  destruct (Request_accepts _ (c :: url) headers
              (page_sent_answer w headers timeout (c :: url) Hurl
                 ltac:(congruence))) as (req & ->).
  cbn [bind emit]. rewrite Hget.
  destruct (fold_left add_release data (versions, seen)) as [vs' seen'].
  cbn [bind fst snd]. destruct (fetch_pages _ _ _ _ _ _ _). reflexivity.
Qed.

(** A turn of the loop starts by sending the request. *)
Lemma fetch_pages_begins (fuel : nat) (w : world) (headers : list (str * str))
    (timeout : Q) (url : str) (versions : list str) (seen : gset str) :
  url <> [] -> page_sent w headers timeout url = true ->
  exists t r,
    fetch_pages (S fuel) w headers timeout url versions seen
    = (Get url headers :: t, r).
Proof.
  intros Hne Hurl. destruct url as [|c url]; [congruence |].
  cbn [fetch_pages].
  destruct (Request_accepts _ (c :: url) headers Hurl) as (req & ->).
  cbn [bind emit].
  destruct (index_get w (c :: url) headers timeout) as [data link|e|].
  - destruct (fold_left add_release data _) as [vs' seen'].
    cbn [bind emit]. destruct (fetch_pages _ _ _ _ _ _ _) as [t r].
    eexists _, _. reflexivity.
  - eexists _, _. reflexivity.
  - eexists _, _. reflexivity.
Qed.

(** Or it ends at once, without a request, when the constructor raises. *)
Lemma fetch_pages_unsent (fuel : nat) (w : world) (headers : list (str * str))
    (timeout : Q) (url : str) (versions : list str) (seen : gset str) :
  url <> [] -> page_sent w headers timeout url = false ->
  exists e,
    fetch_pages (S fuel) w headers timeout url versions seen = ([], Raise e).
Proof.
  intros Hne Hurl. destruct url as [|c url]; [congruence |].
  cbn [fetch_pages].
  destruct (Request_cases (index_refused (index_get w (c :: url) headers timeout))
              (c :: url) headers) as [(Hacc & _)|(_ & e & ->)].
  - unfold page_sent in Hurl. congruence.
  - exists e. reflexivity.
Qed.

(** C6, as stated, fails: a mapping with an
    entry [next] does not always bring another page request.  When the
    URL of the entry is one that [Request] turns down, here a relative
    URL, the loop ends in the [ValueError] of the constructor and the
    only request of the run is the first. *)
Lemma next_entry_without_request :
  parse_link_header (link_header [(lit "/releases?page=2", lit "next")])
    !! lit "next" = Some (lit "/releases?page=2")
  /\ github_fetch_release_tags 5 relative_link_world
       (lit "goauthentik/authentik") 30 None
     = ([Get first_page_url anonymous_headers; Sleep (5 # 100)],
        Raise (UnknownUrlType (lit "/releases?page=2"))).
Proof. split; vm_compute; reflexivity. Qed.

(** C6, amended: a [Link] header made of well-formed entries is parsed
    into the mapping from relation name to URL.  On a page that arrives,
    the loop goes on if and only if the mapping of its [Link] header has
    an entry [next]: if it has, the loop continues with that URL, which
    is not empty; the URL is the next request sent when [Request] builds
    a request for it, and otherwise the retrieval ends in the
    [ValueError] of the constructor without a further request.  If the
    mapping has no such entry, the loop ends after this page and returns
    the versions collected. *)
Theorem pagination_follows_next :
  (forall entries,
      Forall well_formed_entry entries ->
      parse_link_header (link_header entries) = mapping_of entries)
  /\ (forall fuel w headers timeout url data link versions seen,
        url <> [] -> has_scheme url = true ->
        index_get w url headers timeout = IndexPage data link ->
        let mapping := parse_link_header (default [] link) in
        let acc := fold_left add_release data (versions, seen) in
        let this := fetch_pages (S fuel) w headers timeout url versions seen in
        (forall next,
            mapping !! lit "next" = Some next ->
            this = after [Get url headers; Sleep (5 # 100)]
                     (fetch_pages fuel w headers timeout next (fst acc) (snd acc))
            /\ next <> []
            /\ (page_sent w headers timeout next = true ->
                forall fuel', exists t r,
                  fetch_pages (S fuel') w headers timeout next (fst acc) (snd acc)
                  = (Get next headers :: t, r))
            /\ (page_sent w headers timeout next = false ->
                forall fuel', exists e,
                  fetch_pages (S fuel') w headers timeout next (fst acc) (snd acc)
                  = ([], Raise e)))
        /\ (mapping !! lit "next" = None ->
            this = ([Get url headers; Sleep (5 # 100)], Ok (fst acc)))).
Proof.
  split; [exact parse_link_header_entries |].
  intros fuel w headers timeout url data link versions seen Hne Hurl Hget
    mapping acc this.
  assert (Hthis : this
    = after [Get url headers; Sleep (5 # 100)]
        (fetch_pages fuel w headers timeout
           (default [] (mapping !! lit "next")) (fst acc) (snd acc)))
    by (apply fetch_pages_page; assumption).
  split.
  - intros next Hnext. rewrite Hnext in Hthis. split; [exact Hthis |].
    assert (Hnext_ne : next <> [])
      by (eapply parse_link_header_value; exact Hnext).
    split; [exact Hnext_ne |]. split.
    + intros Hsent fuel'. apply fetch_pages_begins; assumption.
    + intros Hsent fuel'. apply fetch_pages_unsent; assumption.
  - intros Hnone. rewrite Hnone in Hthis. cbn [default] in Hthis.
    rewrite fetch_pages_done in Hthis. exact Hthis.
Qed.

Lemma pagination_follows_next_witness :
  parse_link_header (link_header example_entries) = mapping_of example_entries
  /\ fetch_pages 2%nat two_page_world anonymous_headers 30 first_page_url [] ∅
     = after [Get first_page_url anonymous_headers; Sleep (5 # 100)]
         (fetch_pages 1%nat two_page_world anonymous_headers 30 second_page_url
            (fst (fold_left add_release
                    [Some (lit "version/2024.2.1"); Some (lit "v2024.2.1")]
                    ([], ∅)))
            (snd (fold_left add_release
                    [Some (lit "version/2024.2.1"); Some (lit "v2024.2.1")]
                    ([], ∅)))).
Proof.
  split.
  - apply (proj1 pagination_follows_next).
    repeat first [ apply List.Forall_cons | apply List.Forall_nil | split
                 | discriminate | reflexivity ].
  - refine (proj1 (proj1 (proj2 pagination_follows_next 1%nat two_page_world
                            anonymous_headers 30%Q first_page_url
                            [Some (lit "version/2024.2.1"); Some (lit "v2024.2.1")]
                            (Some (link_header example_entries)) [] ∅ _ _ _)
                     second_page_url _)).
    + discriminate.
    + vm_compute. reflexivity.
    + vm_compute. reflexivity.
    + vm_compute. reflexivity.
Defined.

(** ** Fuel *)

(** A run that ended within its fuel ends in the same way with more. *)
Lemma fetch_pages_more_fuel (w : world) (headers : list (str * str))
    (timeout : Q) (fuel : nat) :
  forall url versions seen t r extra,
    fetch_pages fuel w headers timeout url versions seen = (t, r) ->
    r <> OutOfFuel ->
    fetch_pages (fuel + extra) w headers timeout url versions seen = (t, r).
Proof.
  induction fuel as [|fuel IH]; intros url versions seen t r extra Hrun Hr.
  - destruct url as [|c url].
    + rewrite fetch_pages_done. exact Hrun.
    + simpl in Hrun. injection Hrun as <- <-. congruence.
  - destruct url as [|c url]; [exact Hrun |].
    cbn [fetch_pages Nat.add] in Hrun |- *.
    destruct (Urllib.Request _ (c :: url) headers) as [t0 [req|e|]];
      cbn [bind] in Hrun |- *; try exact Hrun.
    cbn [emit] in Hrun |- *.
    destruct (index_get w (c :: url) headers timeout) as [data link|e|];
      [|exact Hrun|exact Hrun].
    destruct (fold_left add_release data (versions, seen)) as [vs' seen'].
    cbn [bind emit] in Hrun |- *.
    destruct (fetch_pages fuel w headers timeout _ vs' seen') as [t' r'] eqn:Hrec.
    injection Hrun as <- <-.
    rewrite (IH _ _ _ _ _ extra Hrec Hr). reflexivity.
Qed.

(** On an index that comes to an end within [n] page requests, [n]
    units of fuel are enough: the client returns or raises. *)
Lemma fetch_pages_enough_fuel (w : world) (headers : list (str * str))
    (timeout : Q) (n : nat) (url : str) :
  ends_within w headers timeout n url ->
  forall versions seen,
    snd (fetch_pages n w headers timeout url versions seen) <> OutOfFuel.
Proof.
  induction 1 as [n|n url Hne Hurl|n url e Hne Hurl Hget|n url Hne Hurl Hget
                  |n url data link Hne Hurl Hget _ IH];
    intros versions seen.
  - rewrite fetch_pages_done. discriminate.
  - destruct url as [|c url]; [congruence |]. cbn [fetch_pages].
    rewrite (Request_rejects _ _ _ Hurl). discriminate.
  - destruct url as [|c url]; [congruence |]. cbn [fetch_pages].
    destruct (Request_accepts _ (c :: url) headers
                (page_sent_answer w headers timeout (c :: url) Hurl
                   ltac:(congruence))) as (req & ->).
    cbn [bind emit]. rewrite Hget. discriminate.
  - destruct url as [|c url]; [congruence |]. cbn [fetch_pages].
    destruct (Request_cases (index_refused (index_get w (c :: url) headers timeout))
                (c :: url) headers) as [(_ & req & ->)|(_ & e & ->)];
      [|discriminate].
    cbn [bind emit]. rewrite Hget. discriminate.
  - rewrite (fetch_pages_page _ _ _ _ _ _ _ _ _ Hne Hurl Hget).
    cbn [after snd]. apply IH.
Qed.

(** ** The scenarios of the specification *)

(** Enumerate-all mode without [--include-404] on the statuses 404, 200
    and 500: two rows after the header, exit 0, three probes. *)
Example enumerate_all_scenario :
  stdout_of (fst (main 1 enumerate_args
                    (three_version_world not_found asset server_error)))
  = [ tsv_header;
      tsv_row (lit "2") 200 (lit "6114f5adc373accd7b2051bd87078f62") 14
        (js_url_of example_base (lit "2"));
      tsv_row (lit "3") 500 (lit "02c77002a0c646684b3325959fe147b2") 4
        (js_url_of example_base (lit "3")) ]
  /\ snd (main 1 enumerate_args
             (three_version_world not_found asset server_error)) = Ok 0
  /\ requests_of (fst (main 1 enumerate_args
                         (three_version_world not_found asset server_error)))
     = [ lit "https://api.github.com/repos/goauthentik/authentik/releases?per_page=100&page=1";
         js_url_of example_base (lit "1");
         js_url_of example_base (lit "2");
         js_url_of example_base (lit "3") ].
Proof. vm_compute. repeat split; reflexivity. Qed.

(** Find-first mode when version 2 is the first to answer 200: one row,
    exit 0, and version 3 is not probed. *)
Example find_first_scenario :
  main 1 example_args (three_version_world server_error asset asset)
  = ( [ Get (lit "https://api.github.com/repos/goauthentik/authentik/releases?per_page=100&page=1")
            [ (lit "Accept", lit "application/vnd.github+json");
              (lit "X-GitHub-Api-Version", lit "2022-11-28");
              (lit "User-Agent", lit "authentik-admin-js-md5") ];
        Sleep (5 # 100);
        Stdout tsv_header;
        Get (js_url_of example_base (lit "1")) probe_headers;
        Get (js_url_of example_base (lit "2")) probe_headers;
        Stdout (tsv_row (lit "2") 200 (lit "6114f5adc373accd7b2051bd87078f62")
                  14 (js_url_of example_base (lit "2"))) ],
      Ok 0 ).
Proof. vm_compute. reflexivity. Qed.

(** Find-first mode when no probe answers 200: only the header, exit 3. *)
Example find_first_nothing_scenario :
  stdout_of (fst (main 1 example_args
                    (three_version_world not_found server_error OpenFails)))
  = [tsv_header]
  /\ exit_status (snd (main 1 example_args
                         (three_version_world not_found server_error OpenFails)))
     = Some 3.
Proof. vm_compute. split; reflexivity. Qed.

(** A base URL given without a scheme: the first probe raises, nothing
    catches it, and the interpreter exits with 1 after the header. *)
Example schemeless_base_scenario :
  main 1 (Args (Some (lit "sso.example.com")) (lit "goauthentik/authentik")
               30 0 true false false)
         (three_version_world asset asset asset)
  = ( [ Get (lit "https://api.github.com/repos/goauthentik/authentik/releases?per_page=100&page=1")
            [ (lit "Accept", lit "application/vnd.github+json");
              (lit "X-GitHub-Api-Version", lit "2022-11-28");
              (lit "User-Agent", lit "authentik-admin-js-md5") ];
        Sleep (5 # 100);
        Stdout tsv_header ],
      Raise (UnknownUrlType
               (lit "sso.example.com/static/dist/admin/AdminInterface-1.js")) ).
Proof. vm_compute. reflexivity. Qed.

(** The digest object against [hashlib] on inputs around the block size. *)
Example md5_vectors :
  Hashlib.hexdigest (Hashlib.md5_of []) = md5_of_nothing
  /\ Hashlib.hexdigest (Hashlib.md5_of (bytes_lit "abc"))
     = lit "900150983cd24fb0d6963f7d28e17f72"
  /\ Hashlib.hexdigest (Hashlib.md5_of (repeat x61 55))
     = lit "ef1772b6dff9a122358552954ad0df65"
  /\ Hashlib.hexdigest (Hashlib.md5_of (repeat x61 56))
     = lit "3b0c8ac703f828b04c6c197006d17218"
  /\ Hashlib.hexdigest (Hashlib.md5_of (repeat x61 64))
     = lit "014842d480b571495a4a0363793f7367"
  /\ Hashlib.hexdigest (Hashlib.md5_of (repeat x61 200))
     = lit "887f30b43b2867f4a9accceee7d16e6c"
  /\ Hashlib.hexdigest
       (Hashlib.update (Hashlib.update Hashlib.new (repeat x61 61)) (repeat x61 139))
     = lit "887f30b43b2867f4a9accceee7d16e6c".
Proof. vm_compute. repeat split; reflexivity. Qed.

(** An index of two pages is read in two requests; with fuel for one
    request only the model gives up after the first page. *)
Example two_page_scenario :
  github_fetch_release_tags 2 two_page_world (lit "goauthentik/authentik") 30 None
  = ( [ Get first_page_url anonymous_headers; Sleep (5 # 100);
        Get second_page_url anonymous_headers; Sleep (5 # 100) ],
      Ok [lit "2024.2.1"; lit "2023.10.7"] )
  /\ snd (github_fetch_release_tags 1 two_page_world
            (lit "goauthentik/authentik") 30 None) = OutOfFuel.
Proof. vm_compute. split; reflexivity. Qed.

(** * Further properties of the code *)

(** ** [normalize_tag] *)

(** X1: normalization only removes: the raw tag is its normalized value
    with blanks on both sides and, in front, one of the four prefixes
    (none, [version/], [v], [version/v]); every other character is kept
    as it is. *)
Theorem normalize_tag_keeps_text (tag : str) :
  exists l p r,
    tag = l ++ p ++ normalize_tag tag ++ r
    /\ all_space l /\ all_space r
    /\ In p [[]; lit "version/"; lit "v"; lit "version/v"].
Proof.
  destruct (strip_trims tag) as (l & r & Htag & Hl & Hr & _).
  unfold normalize_tag.
  destruct (sub_anchored_strips (lit "version/") (PyStr.strip tag)) as [H1|[_ H1]];
    destruct (sub_anchored_strips (lit "v")
                (Re.sub_anchored (lit "version/") (PyStr.strip tag)))
      as [H2|[_ H2]].
  - exists l, (lit "version/v"), r. repeat split; try assumption.
    + rewrite Htag at 1. rewrite H1 at 1. rewrite H2 at 1.
      change (lit "version/v") with (lit "version/" ++ lit "v").
      rewrite <- !app_assoc. reflexivity.
    + simpl. tauto.
  - exists l, (lit "version/"), r. repeat split; try assumption.
    + rewrite Htag at 1. rewrite H1 at 1. rewrite H2.
      rewrite <- !app_assoc. reflexivity.
    + simpl. tauto.
  - exists l, (lit "v"), r. repeat split; try assumption.
    + rewrite Htag at 1. rewrite H1 in H2 |- *. rewrite H2 at 1.
      rewrite <- !app_assoc. reflexivity.
    + simpl. tauto.
  - exists l, [], r. repeat split; try assumption.
    + rewrite H2, H1. exact Htag.
    + simpl. tauto.
Qed.

(** X2: a release is dropped for an empty normalized tag exactly when
    its tag, trimmed, is empty or consists of a prefix only. *)
Theorem normalize_tag_empty_iff (tag : str) :
  normalize_tag tag = [] <->
  In (PyStr.strip tag) [[]; lit "v"; lit "version/"; lit "version/v"].
Proof.
  unfold normalize_tag. split.
  - intros Hout.
    destruct (sub_anchored_strips (lit "version/") (PyStr.strip tag)) as [H1|[_ H1]];
      destruct (sub_anchored_strips (lit "v")
                  (Re.sub_anchored (lit "version/") (PyStr.strip tag)))
        as [H2|[_ H2]];
      rewrite Hout in H2.
    + rewrite H1, H2. simpl. tauto.
    + rewrite H1, <- H2. simpl. tauto.
    + rewrite H1 in H2. rewrite H2. simpl. tauto.
    + rewrite H1 in H2. rewrite <- H2. simpl. tauto.
  - intros [H|[H|[H|[H|[]]]]]; rewrite <- H; reflexivity.
Qed.

(** X3: blanks around a tag do not matter. *)
Theorem normalize_tag_ignores_blanks (l tag r : str) :
  all_space l -> all_space r ->
  normalize_tag (l ++ tag ++ r) = normalize_tag tag.
Proof.
  intros Hl Hr. unfold normalize_tag.
  replace (PyStr.strip (l ++ tag ++ r)) with (PyStr.strip tag); [reflexivity |].
  apply trims_strip.
  destruct (strip_trims tag) as (l' & r' & Htag & Hl' & Hr' & Hlead & Htrail).
  exists (l ++ l'), (r' ++ r). repeat split; try assumption.
  - rewrite Htag at 1. rewrite <- !app_assoc. reflexivity.
  - apply Forall_app. split; assumption.
  - apply Forall_app. split; assumption.
Qed.

Lemma normalize_tag_ignores_blanks_witness :
  normalize_tag (lit "  " ++ lit "v1.2" ++ lit " ") = normalize_tag (lit "v1.2").
Proof.
  apply normalize_tag_ignores_blanks; repeat constructor.
Defined.

(** ** [parse_link_header] *)

Lemma span_until_spec (c : N) (s a b : str) :
  span_until c s = (a, b) ->
  s = a ++ b /\ lacks c a = true.
Proof.
  revert a b. induction s as [|x s IH]; intros a b; cbn [span_until].
  - intros [= <- <-]. split; reflexivity.
  - destruct (x =? c)%N eqn:Hx.
    + intros [= <- <-]. split; reflexivity.
    + destruct (span_until c s) as [a' b']. intros [= <- <-].
      destruct (IH a' b' eq_refl) as [-> Ha]. split; [reflexivity |].
      cbn [lacks forallb]. rewrite Hx. exact Ha.
Qed.

Lemma startswith_drop (p s : str) :
  PyStr.startswith p s = true -> s = p ++ drop (length p) s.
Proof.
  intros H. apply startswith_spec in H as (k & ->).
  rewrite drop_app_length. reflexivity.
Qed.

(** The text of an entry with any blanks [ws] after the semicolon and a
    [tail] after the closing quote. *)
Lemma match_link_part_text (u r ws tail : str) :
  u <> [] -> r <> [] -> lacks 62 u = true -> lacks 34 r = true ->
  all_space ws ->
  match_link_part (lit "<" ++ u ++ lit ">;" ++ ws ++ (lit "rel=" ++ [34%N])
                     ++ r ++ 34%N :: tail)
  = if at_dollar tail then Some (u, r) else None.
Proof.
  intros Hu Hr Hgt Hq Hws. unfold match_link_part.
  change (lit "<" ++ u ++ lit ">;" ++ ws ++ (lit "rel=" ++ [34%N]) ++ r ++ 34%N :: tail)
    with (60%N :: (u ++ 62%N :: 59%N
                     :: (ws ++ (lit "rel=" ++ [34%N]) ++ r ++ 34%N :: tail))).
  change (PyStr.startswith (lit "<") (60%N :: ?s)) with true. cbv iota.
  change (drop 1 (60%N :: ?s)) with s.
  rewrite (span_until_stop 62 u _ Hgt).
  replace (PyStr.eqb u []) with false
    by (symmetry; apply bool_decide_eq_false; exact Hu).
  change (drop 2 (62%N :: 59%N :: ?s)) with s.
  change (PyStr.startswith (lit ">;") (62%N :: 59%N :: ?s)) with true.
  cbn [negb andb]. cbv iota.
  rewrite lstrip_by_app_all by exact Hws.
  change (PyStr.lstrip_by PyStr.isspace ((lit "rel=" ++ [34%N]) ++ r ++ 34%N :: tail))
    with ((lit "rel=" ++ [34%N]) ++ r ++ 34%N :: tail).
  replace (PyStr.startswith (lit "rel=" ++ [34%N])
             ((lit "rel=" ++ [34%N]) ++ r ++ 34%N :: tail)) with true
    by (symmetry; apply startswith_spec; eauto).
  change (drop 5 ((lit "rel=" ++ [34%N]) ++ r ++ 34%N :: tail))
    with (r ++ 34%N :: tail).
  rewrite (span_until_stop 34 r tail Hq).
  replace (PyStr.eqb r []) with false
    by (symmetry; apply bool_decide_eq_false; exact Hr).
  change (PyStr.startswith [34%N] (34%N :: tail)) with true.
  change (drop 1 (34%N :: tail)) with tail.
  cbn [negb andb]. reflexivity.
Qed.

Lemma match_link_part_spec (part url rel : str) :
  match_link_part part = Some (url, rel) <->
  exists ws tail,
    part = lit "<" ++ url ++ lit ">;" ++ ws ++ (lit "rel=" ++ [34%N])
             ++ rel ++ 34%N :: tail
    /\ all_space ws /\ at_dollar tail = true
    /\ url <> [] /\ rel <> []
    /\ lacks 62 url = true /\ lacks 34 rel = true.
Proof.
  split.
  - unfold match_link_part.
    destruct (PyStr.startswith (lit "<") part) eqn:H1; [|discriminate].
    apply startswith_drop in H1. change (length (lit "<")) with 1%nat in H1.
    destruct (span_until 62 (drop 1 part)) as [u s2] eqn:Hspan.
    apply span_until_spec in Hspan as [Hk Hgt].
    destruct (PyStr.eqb u []) eqn:Hu; [discriminate |].
    apply bool_decide_eq_false in Hu. cbn [negb andb].
    destruct (PyStr.startswith (lit ">;") s2) eqn:H2; [|discriminate].
    apply startswith_drop in H2. change (length (lit ">;")) with 2%nat in H2.
    destruct (lstrip_by_split PyStr.isspace (drop 2 s2)) as (ws & Hws & Hall).
    destruct (PyStr.startswith (lit "rel=" ++ [34%N])
                (PyStr.lstrip_by PyStr.isspace (drop 2 s2))) eqn:H3;
      [|discriminate].
    apply startswith_drop in H3.
    change (length (lit "rel=" ++ [34%N])) with 5%nat in H3.
    destruct (span_until 34 (drop 5 _)) as [r s6] eqn:Hspan2.
    apply span_until_spec in Hspan2 as [Hk2 Hq].
    destruct (PyStr.eqb r []) eqn:Hr; [discriminate |].
    apply bool_decide_eq_false in Hr. cbn [negb andb].
    destruct (PyStr.startswith [34%N] s6) eqn:H4; [|discriminate].
    apply startswith_drop in H4. change (length [34%N]) with 1%nat in H4.
    cbn [andb]. destruct (at_dollar (drop 1 s6)) eqn:Hd; [|discriminate].
    intros [= <- <-]. exists ws, (drop 1 s6). repeat split; try assumption.
    rewrite H1 at 1. rewrite Hk at 1. rewrite H2 at 1. rewrite Hws at 1.
    rewrite H3 at 1. rewrite Hk2 at 1. rewrite H4 at 1.
    rewrite <- !app_assoc. reflexivity.
  - intros (ws & tail & -> & Hws & Hd & Hu & Hr & Hgt & Hq).
    rewrite match_link_part_text by assumption. rewrite Hd. reflexivity.
Qed.

(** X4: the pattern of [parse_link_header] accepts exactly the texts
    [<url>;], blanks (possibly none), [rel=], and the relation name in
    double quotes, with a non-empty URL without [>] and a non-empty name
    without double quote, followed by nothing but at most a final
    newline; the groups are the URL and the name. *)
Theorem match_link_part_iff (part url rel : str) :
  match_link_part part = Some (url, rel) <->
  exists ws tail,
    part = lit "<" ++ url ++ lit ">;" ++ ws ++ (lit "rel=" ++ [34%N])
             ++ rel ++ 34%N :: tail
    /\ all_space ws /\ at_dollar tail = true
    /\ url <> [] /\ rel <> []
    /\ lacks 62 url = true /\ lacks 34 rel = true.
Proof. apply match_link_part_spec. Qed.

Lemma at_dollar_cases (s : str) : at_dollar s = true -> s = [] \/ s = [10%N].
Proof.
  destruct s as [|c t]; [left; reflexivity |]. intros H. right.
  destruct c as [|p]; [discriminate |].
  destruct p as [p|p|]; try discriminate.
  destruct p as [p|p|]; try discriminate.
  destruct p as [p|p|]; try discriminate.
  destruct p as [p|p|]; try discriminate.
  destruct t; [reflexivity | discriminate].
Qed.

Lemma link_step_lookup (parts : list str) :
  forall (out : gmap str str) (rel url : str),
    fold_left link_step parts out !! rel = Some url ->
    out !! rel = Some url
    \/ exists part, In part parts
                    /\ match_link_part (PyStr.strip part) = Some (url, rel).
Proof.
  induction parts as [|part parts IH]; intros out rel url; cbn [fold_left].
  - intros H. left. exact H.
  - intros H. apply IH in H as [H|(part' & Hin & Hm)].
    + unfold link_step in H.
      destruct (match_link_part (PyStr.strip part)) as [[u r]|] eqn:Hm;
        [|left; exact H].
      rewrite lookup_insert in H. case_decide as Hr.
      * injection H as ->. subst r. right. exists part. split; [left; reflexivity | exact Hm].
      * left. exact H.
    + right. exists part'. split; [right; exact Hin | exact Hm].
Qed.

(** X5: every entry of the mapping was read from one comma-separated
    part of the header: trimmed, that part is [<url>;], blanks, [rel=]
    and the quoted name, and nothing else. *)
Theorem parse_link_header_sound (link rel url : str) :
  parse_link_header link !! rel = Some url ->
  exists part ws,
    In part (PyStr.split 44 link)
    /\ PyStr.strip part
       = lit "<" ++ url ++ lit ">;" ++ ws ++ (lit "rel=" ++ [34%N]) ++ rel ++ [34%N]
    /\ all_space ws
    /\ url <> [] /\ rel <> []
    /\ lacks 62 url = true /\ lacks 34 rel = true.
Proof.
  rewrite parse_link_header_fold. intros H.
  apply link_step_lookup in H as [H|(part & Hin & Hm)].
  { rewrite lookup_empty in H. discriminate. }
  apply match_link_part_spec in Hm
    as (ws & tail & Hpart & Hws & Hd & Hu & Hr & Hgt & Hq).
  exists part, ws. repeat split; try assumption.
  apply at_dollar_cases in Hd as [-> | ->]; [exact Hpart |].
  exfalso.
  pose proof (rstrip_by_no_trail PyStr.isspace
                (PyStr.lstrip_by PyStr.isspace part)) as Ht.
  fold (PyStr.strip part) in Ht. rewrite Hpart in Ht.
  unfold no_trail in Ht.
  change (rel ++ [34%N; 10%N]) with (rel ++ [34%N] ++ [10%N]) in Ht.
  rewrite !app_assoc, rev_app_distr in Ht. discriminate Ht.
Qed.

Lemma parse_link_header_sound_witness :
  exists part ws,
    In part (PyStr.split 44 (link_header example_entries))
    /\ PyStr.strip part
       = lit "<" ++ second_page_url ++ lit ">;" ++ ws ++ (lit "rel=" ++ [34%N])
           ++ lit "next" ++ [34%N]
    /\ all_space ws
    /\ second_page_url <> [] /\ lit "next" <> []
    /\ lacks 62 second_page_url = true /\ lacks 34 (lit "next") = true.
Proof.
  apply parse_link_header_sound. vm_compute. reflexivity.
Defined.

Lemma mapping_of_snoc (es : list (str * str)) (e : str * str) :
  mapping_of (es ++ [e]) = <[snd e := fst e]> (mapping_of es).
Proof. unfold mapping_of. rewrite fold_left_app. reflexivity. Qed.

Lemma mapping_of_lookup (es : list (str * str)) (r : str) :
  mapping_of es !! r
  = option_map fst (find (fun e => bool_decide (snd e = r)) (rev es)).
Proof.
  induction es as [|e es IH] using rev_ind; [reflexivity |].
  rewrite mapping_of_snoc, rev_app_distr. cbn [rev app find].
  rewrite lookup_insert. destruct (decide (snd e = r)) as [Heq|Hne].
  - rewrite (bool_decide_eq_true_2 _ Heq). reflexivity.
  - rewrite (bool_decide_eq_false_2 _ Hne). exact IH.
Qed.

(** X6: when a header names a relation several times, the URL of the
    last such entry is the one in the mapping; a relation that no entry
    names is absent. *)
Theorem parse_link_header_last_wins (es : list (str * str)) (r : str) :
  Forall well_formed_entry es ->
  parse_link_header (link_header es) !! r
  = option_map fst (find (fun e => bool_decide (snd e = r)) (rev es)).
Proof.
  intros Hwf. rewrite parse_link_header_entries by exact Hwf.
  apply mapping_of_lookup.
Qed.

Lemma parse_link_header_last_wins_witness :
  parse_link_header
    (link_header [ (lit "https://a.example/1", lit "next");
                   (lit "https://a.example/2", lit "next") ]) !! lit "next"
  = Some (lit "https://a.example/2").
Proof.
  refine (parse_link_header_last_wins
            [ (lit "https://a.example/1", lit "next");
              (lit "https://a.example/2", lit "next") ] (lit "next") _).
  repeat first [ apply List.Forall_cons | apply List.Forall_nil | split
               | discriminate | reflexivity ].
Defined.

Lemma no_trail_app (p : N -> bool) (x junk : str) :
  junk <> [] -> no_trail p junk -> no_trail p (x ++ junk).
Proof.
  unfold no_trail. intros Hne H. rewrite rev_app_distr.
  destruct (rev junk) as [|c u] eqn:Hrev; [|exact H].
  exfalso. apply Hne. rewrite <- (rev_involutive junk), Hrev. reflexivity.
Qed.

(** X7: an entry that carries anything after the quoted relation name,
    such as a further parameter, does not match the pattern and is left
    out of the mapping. *)
Theorem parse_link_header_extra_parameter (e : str * str) (junk : str) :
  well_formed_entry e ->
  junk <> [] -> no_trail PyStr.isspace junk -> lacks 44 junk = true ->
  parse_link_header (link_entry e ++ junk) = ∅.
Proof.
  intros He Hne Htrail Hcomma. rewrite parse_link_header_fold.
  rewrite split_lacks
    by (rewrite lacks_app, Hcomma, (link_entry_lacks_comma e He); reflexivity).
  cbn [fold_left]. unfold link_step.
  replace (PyStr.strip (link_entry e ++ junk)) with (link_entry e ++ junk).
  - destruct He as (Hu & Hr & Hgt & _ & Hq & _). destruct e as [u r].
    cbn [fst snd] in *. unfold link_entry. cbn [fst snd].
    replace ((lit "<" ++ u ++ lit ">; rel=" ++ [34%N] ++ r ++ [34%N]) ++ junk)
      with (lit "<" ++ u ++ lit ">;" ++ [32%N] ++ (lit "rel=" ++ [34%N])
              ++ r ++ 34%N :: junk)
      by (rewrite <- !app_assoc; reflexivity).
    rewrite match_link_part_text by first [assumption | repeat constructor].
    destruct (at_dollar junk) eqn:Hd; [|reflexivity].
    apply at_dollar_cases in Hd as [-> | ->]; [congruence | discriminate Htrail].
  - apply trims_strip. exists [], []. rewrite app_nil_r.
    repeat split; try constructor.
    apply no_trail_app; assumption.
Qed.

Lemma parse_link_header_extra_parameter_witness :
  parse_link_header
    (link_entry (second_page_url, lit "next") ++ lit "; title=2") = ∅.
Proof.
  apply parse_link_header_extra_parameter.
  - repeat first [ split | discriminate | reflexivity ].
  - discriminate.
  - reflexivity.
  - reflexivity.
Defined.

(** ** [github_fetch_release_tags] *)

Lemma github_fetch_release_tags_eq (fuel : nat) (w : world) (repo : str)
    (timeout : Q) (token : option str) :
  github_fetch_release_tags fuel w repo timeout token
  = fetch_pages fuel w (index_headers token) timeout (releases_url repo) [] ∅.
Proof. destruct token as [[|c t]|]; reflexivity. Qed.

Lemma Request_trace (refused : bool) (url : str)
    (headers : list (str * str)) :
  fst (Urllib.Request refused url headers) = [].
Proof.
  destruct (Request_cases refused url headers) as [(_ & req & ->)|(_ & e & ->)];
    reflexivity.
Qed.

Lemma fetch_pages_events (w : world) (h : list (str * str)) (timeout : Q)
    (fuel : nat) :
  forall url versions seen,
    Forall (index_event h) (fst (fetch_pages fuel w h timeout url versions seen)).
Proof.
  induction fuel as [|fuel IH]; intros url versions seen.
  - destruct url; constructor.
  - destruct url as [|c url]; [constructor |]. cbn [fetch_pages].
    pose proof (Request_trace (index_refused (index_get w (c :: url) h timeout))
                  (c :: url) h) as Hreq.
    destruct (Urllib.Request _ (c :: url) h) as [t0 [req|e|]];
      cbn [fst] in Hreq; subst t0; cbn [bind fst]; try constructor.
    cbn [emit].
    destruct (index_get w (c :: url) h timeout) as [data link|e|].
    + destruct (fold_left add_release data (versions, seen)) as [vs' seen'].
      cbn [bind emit]. specialize (IH
        (default [] (parse_link_header (default [] link) !! lit "next")) vs' seen').
      destruct (fetch_pages fuel w h timeout _ vs' seen') as [t' r'].
      cbn [fst app] in *.
      constructor; [left; eexists; reflexivity |].
      constructor; [right; reflexivity | exact IH].
    + cbn [raise fst app]. constructor; [left; eexists; reflexivity | constructor].
    + cbn [raise fst app]. constructor; [left; eexists; reflexivity | constructor].
Qed.

(** X8: the release index client does nothing but send page requests and
    pause 0.05 s: it never prints and never prompts.  Every page request
    carries the same headers, so a token given at the start is sent as
    [Authorization: Bearer] with every request, also with those to the
    URLs taken from [Link] headers. *)
Theorem fetch_sends_same_headers (fuel : nat) (w : world) (repo : str)
    (timeout : Q) (token : option str) :
  Forall (index_event (index_headers token))
         (fst (github_fetch_release_tags fuel w repo timeout token))
  /\ (forall t c, token = Some (c :: t) ->
        In (lit "Authorization", lit "Bearer " ++ c :: t) (index_headers token))
  /\ (token = None \/ token = Some [] ->
      index_headers token = anonymous_headers).
Proof.
  split; [|split].
  - rewrite github_fetch_release_tags_eq. apply fetch_pages_events.
  - intros t c ->. cbn [index_headers]. apply in_or_app. right. left. reflexivity.
  - intros [-> | ->]; reflexivity.
Qed.

Lemma fetch_sends_same_headers_witness :
  In (lit "Authorization", lit "Bearer " ++ lit "s3cret")
     (index_headers (Some (lit "s3cret"))).
Proof.
  exact (proj1 (proj2 (fetch_sends_same_headers 0 two_page_world
                         (lit "goauthentik/authentik") 30 (Some (lit "s3cret"))))
           (lit "3cret") 115%N eq_refl).
Defined.

(** A run of the pagination loop that returns. *)
Lemma fetch_pages_returned (w : world) (h : list (str * str)) (timeout : Q)
    (fuel : nat) :
  forall url versions seen t out,
    fetch_pages fuel w h timeout url versions seen = (t, Ok out) ->
    t = concat (List.map (page_events h) (requests_of t))
    /\ (length (requests_of t) <= fuel)%nat
    /\ Forall (fun u => has_scheme u = true
                        /\ exists data link,
                             index_get w u h timeout = IndexPage data link)
              (requests_of t).
Proof.
  induction fuel as [|fuel IH]; intros url versions seen t out Hrun.
  - destruct url; simpl in Hrun; [|discriminate].
    injection Hrun as <- <-. repeat split; [reflexivity | constructor].
  - destruct url as [|c url].
    { injection Hrun as <- <-. repeat split; [simpl; lia | constructor]. }
    cbn [fetch_pages] in Hrun.
    destruct (Request_cases (index_refused (index_get w (c :: url) h timeout))
                (c :: url) h) as [(Hacc & req & Hreq)|(_ & e & Hreq)];
      rewrite Hreq in Hrun.
    + apply accepted_has_scheme in Hacc. rename Hacc into Hurl.
      clear Hreq. cbn [bind emit] in Hrun.
      destruct (index_get w (c :: url) h timeout) as [data link|e|] eqn:Hget;
        [|discriminate|discriminate].
      destruct (fold_left add_release data (versions, seen)) as [vs' seen'].
      cbn [bind emit] in Hrun.
      destruct (fetch_pages fuel w h timeout _ vs' seen') as [t' r'] eqn:Hrec.
      injection Hrun as <- ->.
      destruct (IH _ _ _ _ _ Hrec) as (Hshape & Hlen & Hall).
      assert (Hr : requests_of (Get (c :: url) h :: Sleep (5 # 100) :: t')
                   = (c :: url) :: requests_of t') by reflexivity.
      rewrite Hr. cbn [List.map concat page_events app length]. repeat split.
      * rewrite <- Hshape. reflexivity.
      * lia.
      * constructor; [|exact Hall]. split; [exact Hurl | eauto].
    + discriminate.
Qed.

(** X9: when the client returns its list, every page it asked for has
    arrived (one failing page makes the whole retrieval fail, whatever
    was collected before), each request was followed by one pause of
    0.05 s and by nothing else, and there were at most [fuel] requests. *)
Theorem fetch_returns_after_every_page (fuel : nat) (w : world) (repo : str)
    (timeout : Q) (token : option str) (t : trace) (versions : list str) :
  github_fetch_release_tags fuel w repo timeout token = (t, Ok versions) ->
  t = concat (List.map (page_events (index_headers token)) (requests_of t))
  /\ (length (requests_of t) <= fuel)%nat
  /\ Forall (fun u => has_scheme u = true
                      /\ exists data link,
                           index_get w u (index_headers token) timeout
                           = IndexPage data link)
            (requests_of t).
Proof.
  rewrite github_fetch_release_tags_eq. apply fetch_pages_returned.
Qed.

Lemma fetch_returns_after_every_page_witness :
  fst (github_fetch_release_tags 2 two_page_world (lit "goauthentik/authentik") 30 None)
  = concat (List.map (page_events (index_headers None))
              (requests_of
                 (fst (github_fetch_release_tags 2 two_page_world
                         (lit "goauthentik/authentik") 30 None)))).
Proof.
  refine (proj1 (fetch_returns_after_every_page 2 two_page_world
                   (lit "goauthentik/authentik") 30 None _
                   [lit "2024.2.1"; lit "2023.10.7"] _)).
  vm_compute. reflexivity.
Defined.

(** X10: the loop keeps no record of the pages it has seen: on a page
    whose [next] link is its own URL the client never returns, whatever
    the number of requests allowed. *)
Theorem fetch_pages_follows_a_cycle (w : world) (h : list (str * str))
    (timeout : Q) (url : str) (data : list (option str)) (link : option str) :
  url <> [] -> has_scheme url = true ->
  index_get w url h timeout = IndexPage data link ->
  parse_link_header (default [] link) !! lit "next" = Some url ->
  forall fuel versions seen,
    snd (fetch_pages fuel w h timeout url versions seen) = OutOfFuel
    /\ length (requests_of (fst (fetch_pages fuel w h timeout url versions seen)))
       = fuel.
Proof.
  intros Hne Hurl Hget Hnext. induction fuel as [|fuel IH]; intros versions seen.
  - destruct url; [congruence | split; reflexivity].
  - rewrite (fetch_pages_page _ _ _ _ _ _ _ _ _ Hne Hurl Hget), Hnext.
    change (default [] (Some url)) with url. cbn [after fst snd].
    destruct (IH (fst (fold_left add_release data (versions, seen)))
                 (snd (fold_left add_release data (versions, seen))))
      as [IHo IHn].
    split; [exact IHo |].
    rewrite requests_of_app, length_app, IHn. reflexivity.
Qed.

Lemma fetch_pages_follows_a_cycle_witness :
  snd (fetch_pages 7 looping_world anonymous_headers 30 first_page_url [] ∅)
  = OutOfFuel
  /\ length (requests_of
               (fst (fetch_pages 7 looping_world anonymous_headers 30
                       first_page_url [] ∅)))
     = 7%nat.
Proof.
  refine (fetch_pages_follows_a_cycle looping_world anonymous_headers 30
            first_page_url [Some (lit "v1.0")]
            (Some (link_header [(first_page_url, lit "next")])) _ _ _ _ 7%nat [] ∅).
  - discriminate.
  - vm_compute. reflexivity.
  - reflexivity.
  - vm_compute. reflexivity.
Defined.



(** ** URLs that [Request] accepts *)

Lemma lacks_rev (c : N) (s : str) : lacks c (rev s) = lacks c s.
Proof.
  induction s as [|x s IH]; [reflexivity |].
  cbn [rev]. rewrite lacks_app, IH. cbn [lacks forallb].
  rewrite andb_true_r. apply andb_comm.
Qed.

Lemma partition_lacks (c : N) (s : str) :
  lacks c s = true -> Urllib.partition c s = None.
Proof.
  induction s as [|x s IH]; [reflexivity |]. cbn [lacks forallb Urllib.partition].
  intros H. apply andb_true_iff in H as [Hx Hs]. apply negb_true_iff in Hx.
  rewrite Hx, (IH Hs). reflexivity.
Qed.

Lemma partition_app_lacks (c : N) (a b : str) :
  lacks c b = true ->
  Urllib.partition c (a ++ b)
  = match Urllib.partition c a with
    | Some (x, y) => Some (x, y ++ b)
    | None => None
    end.
Proof.
  intros Hb. induction a as [|x a IH]; cbn [app Urllib.partition].
  - apply partition_lacks, Hb.
  - destruct (x =? c)%N; [reflexivity |]. rewrite IH.
    destruct (Urllib.partition c a) as [[u v]|]; reflexivity.
Qed.

(** Cutting at the last '#' keeps a front that has none. *)
Lemma splittag_keeps_front (p q : str) :
  lacks 35 p = true ->
  exists q', fst (Urllib.splittag (p ++ q)) = p ++ q'.
Proof.
  intros Hp. unfold Urllib.splittag, Urllib.rpartition.
  rewrite rev_app_distr, partition_app_lacks by (rewrite lacks_rev; exact Hp).
  destruct (Urllib.partition 35 (rev q)) as [[x y]|].
  - exists (rev y). cbn [fst]. rewrite rev_app_distr, rev_involutive. reflexivity.
  - exists q. reflexivity.
Qed.

Lemma span_scheme_stop (scheme rest : str) :
  lacks 47 scheme = true -> lacks 58 scheme = true ->
  Urllib.span_scheme (scheme ++ 58%N :: rest) = (scheme, 58%N :: rest).
Proof.
  induction scheme as [|x s IH]; intros H1 H2; [reflexivity |].
  cbn [lacks forallb] in H1, H2.
  apply andb_true_iff in H1 as [Hx1 Hs1]. apply andb_true_iff in H2 as [Hx2 Hs2].
  apply negb_true_iff in Hx1, Hx2.
  cbn [app Urllib.span_scheme]. rewrite Hx1, Hx2, (IH Hs1 Hs2). reflexivity.
Qed.

Lemma scheme_not_URL (scheme rest : str) :
  lacks 58 scheme = true -> scheme <> lit "URL" ->
  PyStr.startswith (lit "URL:") (scheme ++ 58%N :: rest) = false.
Proof.
  intros Hc Hne.
  destruct (PyStr.startswith (lit "URL:") (scheme ++ 58%N :: rest)) eqn:H;
    [|reflexivity].
  exfalso. apply startswith_spec in H as (k & Hk).
  change (lit "URL:" ++ k) with (85%N :: 82%N :: 76%N :: 58%N :: k) in Hk.
  destruct scheme as [|a [|b [|c [|d s]]]]; cbn [app] in Hk.
  - discriminate Hk.
  - discriminate Hk.
  - discriminate Hk.
  - injection Hk as Ha Hb Hc' _. subst. apply Hne. reflexivity.
  - injection Hk as Ha Hb Hc' Hd _. subst. vm_compute in Hc. discriminate Hc.
Qed.

(** A URL made of a good scheme, a colon and any text that does not end
    with a blank can be given to [Request]. *)
Lemma has_scheme_ok (scheme rest : str) (c : N) :
  scheme_ok scheme = true -> PyStr.isspace c = false ->
  has_scheme (scheme ++ lit ":" ++ rest ++ [c]) = true.
Proof.
  unfold scheme_ok. rewrite !andb_true_iff, !negb_true_iff.
  intros ((((((Hne & Hslash) & Hcolon) & Hhash) & Hsp) & Hlt) & Hurl) Hc.
  apply bool_decide_eq_false in Hne, Hurl.
  destruct scheme as [|a s]; [congruence |]. cbn [hd] in Hsp, Hlt.
  unfold has_scheme, Urllib.unwrap.
  set (url := (a :: s) ++ lit ":" ++ rest ++ [c]).
  assert (Hstrip : PyStr.strip url = url).
  { unfold PyStr.strip. rewrite lstrip_by_id by exact Hsp.
    apply rstrip_by_id. unfold no_trail, url.
    rewrite !app_assoc, rev_app_distr. exact Hc. }
  rewrite Hstrip.
  assert (Hl : PyStr.startswith (lit "<") url = false).
  { unfold url.
    change (PyStr.startswith (lit "<") ((a :: s) ++ lit ":" ++ rest ++ [c]))
      with ((60 =? a)%N && true).
    rewrite N.eqb_sym, Hlt. reflexivity. }
  rewrite Hl. cbn [andb].
  unfold url at 1. change (lit ":" ++ rest ++ [c]) with (58%N :: rest ++ [c]).
  rewrite scheme_not_URL by assumption.
  unfold url. change (lit ":" ++ rest ++ [c]) with ([58%N] ++ rest ++ [c]).
  rewrite app_assoc.
  destruct (splittag_keeps_front ((a :: s) ++ [58%N]) (rest ++ [c])) as (q' & ->).
  { rewrite lacks_app, Hhash. reflexivity. }
  rewrite <- app_assoc. unfold Urllib.splittype. cbn [app].
  change (a :: s ++ 58%N :: q') with ((a :: s) ++ 58%N :: q').
  rewrite span_scheme_stop by assumption. reflexivity.
Qed.

(** Such a URL is left as it is by [unwrap]. *)
Lemma unwrap_scheme_ok (scheme rest : str) (c : N) :
  scheme_ok scheme = true -> PyStr.isspace c = false ->
  Urllib.unwrap (scheme ++ lit ":" ++ rest ++ [c])
  = scheme ++ lit ":" ++ rest ++ [c].
Proof.
  unfold scheme_ok. rewrite !andb_true_iff, !negb_true_iff.
  intros ((((((Hne & Hslash) & Hcolon) & Hhash) & Hsp) & Hlt) & Hurl) Hc.
  apply bool_decide_eq_false in Hne, Hurl.
  destruct scheme as [|a s]; [congruence |]. cbn [hd] in Hsp, Hlt.
  unfold Urllib.unwrap.
  set (url := (a :: s) ++ lit ":" ++ rest ++ [c]).
  assert (Hstrip : PyStr.strip url = url).
  { unfold PyStr.strip. rewrite lstrip_by_id by exact Hsp.
    apply rstrip_by_id. unfold no_trail, url.
    rewrite !app_assoc, rev_app_distr. exact Hc. }
  rewrite Hstrip.
  assert (Hl : PyStr.startswith (lit "<") url = false).
  { unfold url.
    change (PyStr.startswith (lit "<") ((a :: s) ++ lit ":" ++ rest ++ [c]))
      with ((60 =? a)%N && true).
    rewrite N.eqb_sym, Hlt. reflexivity. }
  rewrite Hl. cbn [andb].
  unfold url at 1. change (lit ":" ++ rest ++ [c]) with (58%N :: rest ++ [c]).
  rewrite scheme_not_URL by assumption. reflexivity.
Qed.

Lemma partition_split (c : N) (s x y : str) :
  Urllib.partition c s = Some (x, y) -> s = x ++ c :: y.
Proof.
  revert x y. induction s as [|z s IH]; intros x y; cbn [Urllib.partition];
    [discriminate |].
  destruct (z =? c)%N eqn:Hz.
  - apply N.eqb_eq in Hz as ->. intros [= <- <-]. reflexivity.
  - destruct (Urllib.partition c s) as [[u v]|]; [|discriminate].
    intros [= <- <-]. rewrite (IH u v eq_refl). reflexivity.
Qed.

(** Putting the fragment back gives the URL again, unless it ends with
    a '#'. *)
Lemma full_url_of_splittag (front : str) (c : N) :
  c <> 35%N ->
  Urllib.full_url_of (fst (Urllib.splittag (front ++ [c])))
                     (snd (Urllib.splittag (front ++ [c])))
  = front ++ [c].
Proof.
  intros Hc. unfold Urllib.splittag, Urllib.rpartition.
  destruct (Urllib.partition 35 (rev (front ++ [c]))) as [[x y]|] eqn:Hp;
    [|reflexivity].
  apply partition_split in Hp. cbn [fst snd].
  assert (Hu : front ++ [c] = rev y ++ 35%N :: rev x).
  { rewrite <- (rev_involutive (front ++ [c])), Hp, rev_app_distr.
    cbn [rev]. rewrite <- app_assoc. reflexivity. }
  destruct x as [|z x].
  - exfalso. rewrite rev_app_distr in Hp. cbn [rev app] in Hp.
    injection Hp as Hp _. congruence.
  - unfold Urllib.full_url_of.
    destruct (rev (z :: x)) as [|r rs] eqn:Hr.
    + apply (f_equal (@length N)) in Hr. rewrite length_rev in Hr.
      discriminate Hr.
    + symmetry. exact Hu.
Qed.

Lemma request_url_scheme_ok (scheme rest : str) (c : N) :
  scheme_ok scheme = true -> PyStr.isspace c = false -> c <> 35%N ->
  request_url (scheme ++ lit ":" ++ rest ++ [c])
  = scheme ++ lit ":" ++ rest ++ [c].
Proof.
  intros Hs Hc Hh. unfold request_url.
  rewrite (unwrap_scheme_ok scheme rest c Hs Hc).
  rewrite !app_assoc. apply full_url_of_splittag, Hh.
Qed.

(** X12: whatever the repository name, the first page request can be
    built and is sent, to the releases endpoint of the API with
    [per_page=100&page=1]: the client never fails before its first
    request. *)
Theorem fetch_first_request (fuel : nat) (w : world) (repo : str)
    (timeout : Q) (token : option str) :
  exists t r,
    github_fetch_release_tags (S fuel) w repo timeout token
    = (Get (lit "https://api.github.com/repos/" ++ repo
              ++ lit "/releases?per_page=100&page=1")
           (index_headers token) :: t, r).
Proof.
  rewrite github_fetch_release_tags_eq.
  change (lit "https://api.github.com/repos/" ++ repo
            ++ lit "/releases?per_page=100&page=1")
    with (releases_url repo).
  apply fetch_pages_begins.
  - discriminate.
  - assert (Hshape : releases_url repo
      = lit "https" ++ lit ":"
          ++ (lit "//api.github.com/repos/" ++ repo
                ++ lit "/releases?per_page=100&page=") ++ [49%N])
      by (unfold releases_url, GITHUB_API; rewrite <- !app_assoc; reflexivity).
    apply accepted_plain.
    + rewrite Hshape. apply has_scheme_ok; reflexivity.
    + rewrite Hshape, request_url_scheme_ok by (reflexivity || discriminate).
      reflexivity.
Qed.

(** ** Base URLs with a plain host *)

Lemma scheme_char_facts (x : N) :
  Urllib.scheme_char x = true ->
  (43 <= x <= 122)%N /\ x <> 47%N /\ x <> 58%N /\ x <> 60%N.
Proof.
  unfold Urllib.scheme_char, Urllib.ascii_letter.
  rewrite !orb_true_iff, !andb_true_iff, !N.leb_le, !N.eqb_eq. lia.
Qed.

Lemma visible_not_space (x : N) :
  (33 <= x <= 126)%N -> PyStr.isspace x = false.
Proof.
  intros H. unfold PyStr.isspace.
  repeat (apply orb_false_intro);
    first [ apply N.eqb_neq; lia
          | apply andb_false_iff; left; apply N.leb_gt; lia
          | apply andb_false_iff; right; apply N.leb_gt; lia ].
Qed.

Lemma after_scheme_split (s r : str) :
  Urllib.after_scheme s = Some r ->
  exists scheme,
    s = scheme ++ 58%N :: r /\ forallb Urllib.scheme_char scheme = true.
Proof.
  revert r. induction s as [|c s IH]; intros r; cbn [Urllib.after_scheme];
    [discriminate |].
  destruct (c =? 58)%N eqn:Hc.
  - apply N.eqb_eq in Hc as ->. intros [= ->]. exists []. split; reflexivity.
  - destruct (Urllib.scheme_char c) eqn:Hs; [|discriminate]. intros H.
    destruct (IH r H) as (sch & -> & Hall). exists (c :: sch).
    split; [reflexivity |]. cbn [forallb]. rewrite Hs. exact Hall.
Qed.

Lemma after_scheme_app (s r t : str) :
  Urllib.after_scheme s = Some r ->
  Urllib.after_scheme (s ++ t) = Some (r ++ t).
Proof.
  revert r. induction s as [|c s IH]; intros r;
    cbn [Urllib.after_scheme app]; [discriminate |].
  destruct (c =? 58)%N; [intros [= ->]; reflexivity |].
  destruct (Urllib.scheme_char c); [apply IH | discriminate].
Qed.

Lemma plain_host_app (s t : str) :
  Urllib.plain_host s = true -> Urllib.plain_host (s ++ 47%N :: t) = true.
Proof.
  induction s as [|c s IH]; cbn [Urllib.plain_host app]; [reflexivity |].
  destruct (Urllib.host_delimiter c); [reflexivity |].
  intros H. apply andb_true_iff in H as [-> H]. exact (IH H).
Qed.

(** A slash and more text after a URL with a plain host leave the host
    as it is. *)
Lemma host_plain_app (base t : str) :
  Urllib.host_plain base = true ->
  Urllib.host_plain (base ++ 47%N :: t) = true.
Proof.
  unfold Urllib.host_plain. intros H. apply andb_true_iff in H as [Hc H].
  destruct base as [|c base]; [discriminate Hc |]. cbn [hd app] in Hc |- *.
  rewrite Hc. cbn [andb].
  destruct (Urllib.after_scheme (c :: base)) as [r|] eqn:Ha; [|discriminate].
  change (c :: base ++ 47%N :: t) with ((c :: base) ++ 47%N :: t).
  rewrite (after_scheme_app _ _ (47%N :: t) Ha).
  apply andb_true_iff in H as [Hs Hp].
  apply startswith_spec in Hs as (k & ->).
  change (lit "//" ++ k) with (47%N :: 47%N :: k) in Hp |- *.
  cbn [drop] in Hp. cbn [app PyStr.startswith drop].
  change (PyStr.startswith (lit "//") (47%N :: 47%N :: k ++ 47%N :: t))
    with (PyStr.startswith [] (k ++ 47%N :: t)).
  apply andb_true_iff. split; [destruct (k ++ 47%N :: t); reflexivity |].
  apply plain_host_app, Hp.
Qed.

(** The scheme of a URL with a plain host. *)
Lemma host_plain_scheme (base : str) :
  Urllib.host_plain base = true ->
  PyStr.startswith (lit "URL:") base = false ->
  exists scheme rest,
    base = scheme ++ lit ":" ++ rest /\ scheme_ok scheme = true.
Proof.
  unfold Urllib.host_plain. intros H Hurl. apply andb_true_iff in H as [Hc H].
  destruct (Urllib.after_scheme base) as [r|] eqn:Ha; [|discriminate].
  destruct (after_scheme_split base r Ha) as (scheme & -> & Hall).
  exists scheme, r. split; [reflexivity |].
  destruct scheme as [|a sch].
  { cbn [app hd] in Hc. discriminate Hc. }
  cbn [app hd] in Hc.
  assert (Hlacks : forall c, (c = 47 \/ c = 58 \/ c = 35)%N ->
                             lacks c (a :: sch) = true).
  { intros c Hc'. unfold lacks. apply forallb_forall. intros x Hx.
    rewrite forallb_forall in Hall. apply Hall, scheme_char_facts in Hx.
    apply negb_true_iff, N.eqb_neq. lia. }
  assert (Ha' : (65 <= a <= 122)%N).
  { unfold Urllib.ascii_letter in Hc.
    rewrite orb_true_iff, !andb_true_iff, !N.leb_le in Hc. lia. }
  unfold scheme_ok. rewrite !Hlacks by tauto. cbn [hd].
  rewrite visible_not_space by lia.
  replace (a =? 60)%N with false by (symmetry; apply N.eqb_neq; lia).
  cbn [negb]. rewrite !andb_true_r. apply andb_true_iff. split.
  - apply negb_true_iff, bool_decide_eq_false. discriminate.
  - apply negb_true_iff, bool_decide_eq_false. intros E. rewrite E in Hurl.
    discriminate Hurl.
Qed.

Lemma js_url_of_plain (base_url ver : str) :
  Urllib.host_plain base_url = true ->
  PyStr.startswith (lit "URL:") base_url = false ->
  forall refused, accepted refused (js_url_of base_url ver) = true.
Proof.
  intros Hplain Hurl refused.
  destruct (host_plain_scheme base_url Hplain Hurl) as (scheme & rest & Hb & Hs).
  assert (Hshape : js_url_of base_url ver
    = scheme ++ lit ":"
        ++ (rest ++ lit "/static/dist/admin/AdminInterface-" ++ ver ++ lit ".j")
        ++ [115%N])
    by (unfold js_url_of; rewrite Hb, <- !app_assoc; reflexivity).
  apply accepted_plain.
  - rewrite Hshape. apply has_scheme_ok; [exact Hs | reflexivity].
  - rewrite Hshape, request_url_scheme_ok by (assumption || reflexivity || discriminate).
    rewrite <- Hshape. apply host_plain_app, Hplain.
Qed.

(** X13: when the base URL is a scheme, [://] and a plain host, with or
    without more text after the host, as [https://sso.example.com], and
    does not begin with [URL:], the request of every probe is built,
    whatever the version string and whatever the network does: the
    probe is sent and returns a triple, and the scan cannot end in a
    [ValueError] of [Request]. *)
Theorem probe_returns_for_base_with_scheme (base_url ver : str) :
  Urllib.host_plain base_url = true ->
  PyStr.startswith (lit "URL:") base_url = false ->
  forall a w,
    probe_sent w (js_url_of base_url ver) (arg_timeout a) = true
    /\ is_Some (probed_status a w base_url ver).
Proof.
  intros Hplain Hurl a w.
  assert (Hsent : probe_sent w (js_url_of base_url ver) (arg_timeout a) = true)
    by (apply js_url_of_plain; assumption).
  split; [exact Hsent |]. unfold probed_status.
  rewrite fetch_status_md5_bytes_sent by exact Hsent. cbn [snd].
  destruct (probe_result _) as [[status md5_hex] nbytes]. eexists. reflexivity.
Qed.

Lemma probe_returns_for_base_with_scheme_witness :
  is_Some (probed_status example_args (probe_world Refused)
             (lit "https://sso.example.com") (lit "2024.2.1#x")).
Proof.
  refine (proj2 (probe_returns_for_base_with_scheme
                   (lit "https://sso.example.com") (lit "2024.2.1#x") _ _
                   example_args (probe_world Refused))).
  - reflexivity.
  - reflexivity.
Defined.

(** ** [fetch_status_md5_bytes] *)

Lemma le_bytes_length (n : nat) (x : Z) : length (Hashlib.le_bytes n x) = n.
Proof.
  revert x. induction n as [|n IH]; intros x; [reflexivity |].
  cbn [Hashlib.le_bytes length]. rewrite IH. reflexivity.
Qed.

Lemma digest_length (m : Hashlib.md5) : length (Hashlib.digest m) = 16%nat.
Proof.
  unfold Hashlib.digest.
  destruct (fst (Hashlib.absorb _ _ _)) as [[[a b] c] d].
  rewrite !length_app, !le_bytes_length. reflexivity.
Qed.

Lemma hex_of_byte_format (b : byte) :
  length (Hashlib.hex_of_byte b) = 2%nat
  /\ forallb is_lower_hex (Hashlib.hex_of_byte b) = true.
Proof. destruct b; split; reflexivity. Qed.

Lemma hexdigest_format (m : Hashlib.md5) :
  length (Hashlib.hexdigest m) = 32%nat
  /\ forallb is_lower_hex (Hashlib.hexdigest m) = true.
Proof.
  unfold Hashlib.hexdigest. pose proof (digest_length m) as Hlen.
  assert (H : forall bs : list byte,
    length (concat (List.map Hashlib.hex_of_byte bs)) = (2 * length bs)%nat
    /\ forallb is_lower_hex (concat (List.map Hashlib.hex_of_byte bs)) = true).
  { induction bs as [|b bs [IH1 IH2]]; [split; reflexivity |].
    destruct (hex_of_byte_format b) as [H1 H2].
    cbn [List.map concat]. rewrite length_app, forallb_app, H1, H2, IH1, IH2.
    split; [simpl; lia | reflexivity]. }
  destruct (H (Hashlib.digest m)) as [H1 H2]. rewrite H1, Hlen.
  split; [reflexivity | exact H2].
Qed.

Lemma probe_result_format_lemma (w : world) (url : str) (timeout : Q)
    (t : trace) (status : Z) (md5_hex : str) (nbytes : Z) :
  fetch_status_md5_bytes w url timeout = (t, Ok (status, md5_hex, nbytes)) ->
  0 <= nbytes
  /\ ((md5_hex = lit "-" /\ nbytes = 0)
      \/ (length md5_hex = 32%nat /\ forallb is_lower_hex md5_hex = true)).
Proof.
  intros H. apply fetch_status_md5_bytes_returned in H as (_ & _ & H).
  unfold probe_result in H.
  destruct (probe_get w url timeout) as [st body|code body| |];
    try destruct (body_bytes body) as [bs|];
    injection H as -> -> ->;
    (split; [lia |]);
    first [ left; split; reflexivity | right; apply hexdigest_format ].
Qed.

(** X14: the triple of a probe that returns is fit for a row: the byte
    count is not negative, and the digest is either ["-"], with a byte
    count of 0, or 32 lowercase hexadecimal digits. *)
Theorem probe_result_format (w : world) (url : str) (timeout : Q) (t : trace)
    (status : Z) (md5_hex : str) (nbytes : Z) :
  fetch_status_md5_bytes w url timeout = (t, Ok (status, md5_hex, nbytes)) ->
  0 <= nbytes
  /\ ((md5_hex = lit "-" /\ nbytes = 0)
      \/ (length md5_hex = 32%nat /\ forallb is_lower_hex md5_hex = true)).
Proof. apply probe_result_format_lemma. Qed.

Lemma probe_result_format_witness :
  0 <= 14
  /\ ((Hashlib.hexdigest (Hashlib.md5_of (bytes_lit "console.log(1)")) = lit "-"
       /\ 14 = 0)
      \/ (length (Hashlib.hexdigest (Hashlib.md5_of (bytes_lit "console.log(1)")))
          = 32%nat
          /\ forallb is_lower_hex
               (Hashlib.hexdigest (Hashlib.md5_of (bytes_lit "console.log(1)")))
             = true)).
Proof.
  refine (probe_result_format (probe_world asset) example_url 30
            [Get example_url probe_headers] 200 _ 14 _).
  vm_compute. reflexivity.
Defined.

Lemma body_bytes_fails (chunks : list (list byte)) (rest : list read_event) :
  Forall (fun c => c <> []) chunks ->
  body_bytes (List.map Chunk chunks ++ ReadFails :: rest) = None.
Proof.
  induction 1 as [|c cs Hc _ IH]; [reflexivity |].
  destruct c as [|b c]; [congruence |].
  cbn [List.map app body_bytes]. rewrite IH. reflexivity.
Qed.

(** X15: when a read of the body of a response raises, the probe reports
    status 0, digest ["-"] and 0 bytes: the status that was received and
    the chunks that were hashed before the failure are dropped.  (After
    an [HTTPError] the status is kept in the same situation.) *)
Theorem probe_read_failure_drops_status (w : world) (url : str) (timeout : Q)
    (status : Z) (chunks : list (list byte)) (rest : list read_event) :
  has_scheme url = true ->
  Forall (fun c => c <> []) chunks ->
  (probe_get w url timeout
   = Opened status (List.map Chunk chunks ++ ReadFails :: rest) ->
   snd (fetch_status_md5_bytes w url timeout) = Ok (0, lit "-", 0))
  /\ (probe_get w url timeout
      = OpenHTTPError (Some status) (List.map Chunk chunks ++ ReadFails :: rest) ->
      snd (fetch_status_md5_bytes w url timeout) = Ok (status, lit "-", 0)).
Proof.
  intros Hurl Hne.
  split; intros Hget;
    rewrite fetch_status_md5_bytes_answered by (congruence || exact Hurl);
    rewrite Hget; cbn [snd probe_result];
    rewrite body_bytes_fails by exact Hne; reflexivity.
Qed.

Lemma probe_read_failure_drops_status_witness :
  snd (fetch_status_md5_bytes
         (probe_world (Opened 200 (List.map Chunk [bytes_lit "console."]
                                     ++ ReadFails :: [])))
         example_url 30)
  = Ok (0, lit "-", 0).
Proof.
  refine (proj1 (probe_read_failure_drops_status _ example_url 30 200
                   [bytes_lit "console."] [] _ _) _).
  - vm_compute. reflexivity.
  - repeat constructor. discriminate.
  - reflexivity.
Defined.

(** What a probe leaves in the trace: nothing when [Request] refuses the
    URL, else its one request. *)
Lemma fetch_status_md5_bytes_cases (w : world) (url : str) (timeout : Q) :
  (exists e, fetch_status_md5_bytes w url timeout = ([], Raise e))
  \/ (exists r, fetch_status_md5_bytes w url timeout
                = ([Get url probe_headers], Ok r)).
Proof.
  destruct (probe_sent w url timeout) eqn:Hurl.
  - right. rewrite fetch_status_md5_bytes_sent by exact Hurl. eauto.
  - left. apply fetch_status_md5_bytes_unsent, Hurl.
Qed.

(** ** The scan *)

Lemma scan_cons_raise (a : args) (w : world) (base_url : str) (n i hits : Z)
    (ver : str) (rest : list str) (t : trace) (e : exn) :
  fetch_status_md5_bytes w (js_url_of base_url ver) (arg_timeout a)
  = (t, Raise e) ->
  scan a w base_url n i hits (ver :: rest)
  = (checking_events a n i ver ++ t, Raise e).
Proof.
  intros H. cbn [scan]. rewrite H. unfold when, checking_events.
  destruct (arg_verbose a); reflexivity.
Qed.

Lemma scan_event_checking (a : args) (w : world) (n i : Z) (ver : str) :
  Forall (scan_event a w) (checking_events a n i ver).
Proof.
  unfold checking_events. destruct (arg_verbose a) eqn:Hv; repeat constructor.
  exact Hv.
Qed.

Lemma scan_event_pause (a : args) (w : world) :
  pause_ok a w = true -> Forall (scan_event a w) (pause_events a).
Proof.
  unfold pause_ok, pause_events.
  destruct (Qle_bool (arg_sleep a) 0) eqn:Hq; [constructor |].
  destruct (sleep_overflows w (arg_sleep a)) eqn:Ho; [discriminate |].
  intros _. repeat constructor; assumption.
Qed.

(** X16: the scan does nothing but announce versions, send probes,
    print lines and pause for the [--sleep] time; it announces only when
    it is verbose, and pauses only for a positive time that [time.sleep]
    takes.  Every probe carries the [User-Agent] header and no other, so
    the token of the release index is never sent to the scanned host. *)
Theorem scan_sends_only_probes (a : args) (w : world) (base_url : str) (n : Z)
    (versions : list str) :
  forall i hits,
    Forall (scan_event a w) (fst (scan a w base_url n i hits versions)).
Proof.
  induction versions as [|ver rest IH]; intros i hits.
  - cbn [scan]. destruct (negb (arg_all a)); constructor.
  - destruct (fetch_status_md5_bytes_cases w (js_url_of base_url ver) (arg_timeout a))
      as [(e & H)|([[status md5_hex] nbytes] & H)].
    + rewrite (scan_cons_raise _ _ _ _ _ _ _ _ _ _ H). cbn [fst].
      rewrite app_nil_r. apply scan_event_checking.
    + destruct (pause_ok a w) eqn:Hpause.
      * rewrite (scan_cons _ _ _ _ _ _ _ _ _ _ _ _ Hpause H). cbv zeta.
        specialize (IH (i + 1) (if status =? 200 then hits + 1 else hits)).
        destruct ((status =? 404) && negb (arg_include_404 a)), (arg_all a),
          (status =? 200); cbn [after fst];
          repeat (apply Forall_app; split);
          first [ apply scan_event_checking | apply scan_event_pause, Hpause
                | exact IH | repeat constructor ].
      * rewrite (scan_cons_overflow _ _ _ _ _ _ _ _ _ _ _ _ Hpause H). cbv zeta.
        destruct ((status =? 404) && negb (arg_include_404 a)), (arg_all a),
          (status =? 200); cbn [after fst];
          repeat (apply Forall_app; split);
          first [ apply scan_event_checking | repeat constructor ].
Qed.

Lemma scan_requests_prefix (a : args) (w : world) (base_url : str) (n : Z)
    (versions : list str) :
  forall i hits, exists k,
    requests_of (fst (scan a w base_url n i hits versions))
    = List.map (js_url_of base_url) (take k versions).
Proof.
  induction versions as [|ver rest IH]; intros i hits.
  - exists 0%nat. cbn [scan]. destruct (negb (arg_all a)); reflexivity.
  - destruct (fetch_status_md5_bytes_cases w (js_url_of base_url ver) (arg_timeout a))
      as [(e & H)|([[status md5_hex] nbytes] & H)].
    + exists 0%nat. rewrite (scan_cons_raise _ _ _ _ _ _ _ _ _ _ H). cbn [fst].
      rewrite app_nil_r. apply requests_of_checking_events.
    + destruct (pause_ok a w) eqn:Hpause.
      * rewrite (scan_cons _ _ _ _ _ _ _ _ _ _ _ _ Hpause H). cbv zeta.
        destruct (IH (i + 1) (if status =? 200 then hits + 1 else hits))
          as (k & Hk).
        destruct ((status =? 404) && negb (arg_include_404 a)), (arg_all a),
          (status =? 200); cbn [after fst];
          rewrite ?requests_of_app, ?Hk, ?requests_of_checking_events,
            ?requests_of_pause_events;
          first [ exists (S k); reflexivity | exists 1%nat; reflexivity ].
      * rewrite (scan_cons_overflow _ _ _ _ _ _ _ _ _ _ _ _ Hpause H). cbv zeta.
        exists 1%nat.
        destruct ((status =? 404) && negb (arg_include_404 a)), (arg_all a),
          (status =? 200); cbn [after fst];
          rewrite ?requests_of_app, ?requests_of_checking_events; reflexivity.
Qed.

(** X17: the scan probes the versions in the order of the list, each at
    most once, without skipping any: the requests it sends are those of
    an initial part of the list. *)
Theorem scan_probes_in_order (a : args) (w : world) (base_url : str) (n : Z)
    (versions : list str) :
  forall i hits, exists k,
    requests_of (fst (scan a w base_url n i hits versions))
    = List.map (js_url_of base_url) (take k versions).
Proof. apply scan_requests_prefix. Qed.






(** ** [--verbose] and [--sleep] *)

Lemma same_run_after {A} (p1 p2 : trace) (m1 m2 : M A) :
  stdout_of p1 = stdout_of p2 -> requests_of p1 = requests_of p2 ->
  same_run m1 m2 -> same_run (after p1 m1) (after p2 m2).
Proof.
  intros Hs Hr (H1 & H2 & H3). unfold same_run, after. cbn [fst snd].
  rewrite !stdout_of_app, !requests_of_app, Hs, Hr, H1, H2, H3. repeat split.
Qed.

Lemma same_run_refl {A} (m : M A) : same_run m m.
Proof. repeat split. Qed.

Lemma scan_same_run (b : option str) (r : str) (t s s' : Q)
    (al inc v v' : bool) (w : world) (base_url : str) (n : Z)
    (versions : list str) :
  pause_ok (Args b r t s al inc v) w = pause_ok (Args b r t s' al inc v') w ->
  forall i hits,
    same_run (scan (Args b r t s al inc v) w base_url n i hits versions)
             (scan (Args b r t s' al inc v') w base_url n i hits versions).
Proof.
  intros Hp. induction versions as [|ver rest IH]; intros i hits.
  - apply same_run_refl.
  - destruct (fetch_status_md5_bytes_cases w (js_url_of base_url ver) t)
      as [(e & H)|([[status md5_hex] nbytes] & H)].
    + rewrite (scan_cons_raise (Args b r t s al inc v) _ _ _ _ _ _ _ _ _ H).
      rewrite (scan_cons_raise (Args b r t s' al inc v') _ _ _ _ _ _ _ _ _ H).
      unfold same_run. cbn [fst snd].
      rewrite !stdout_of_app, !requests_of_app, !stdout_of_checking_events,
        !requests_of_checking_events. repeat split.
    + destruct (pause_ok (Args b r t s al inc v) w) eqn:Hp1; symmetry in Hp.
      * rewrite (scan_cons (Args b r t s al inc v) _ _ _ _ _ _ _ _ _ _ _ Hp1 H).
        rewrite (scan_cons (Args b r t s' al inc v') _ _ _ _ _ _ _ _ _ _ _ Hp H).
        cbv zeta. cbn [arg_include_404 arg_all].
        apply same_run_after.
        { rewrite !stdout_of_app, !stdout_of_checking_events. reflexivity. }
        { rewrite !requests_of_app, !requests_of_checking_events. reflexivity. }
        specialize (IH (i + 1) (if status =? 200 then hits + 1 else hits)).
        assert (Hgo : same_run
          (after (pause_events (Args b r t s al inc v))
             (scan (Args b r t s al inc v) w base_url n (i + 1)
                (if status =? 200 then hits + 1 else hits) rest))
          (after (pause_events (Args b r t s' al inc v'))
             (scan (Args b r t s' al inc v') w base_url n (i + 1)
                (if status =? 200 then hits + 1 else hits) rest))).
        { apply same_run_after; [| | exact IH].
          - rewrite !stdout_of_pause_events. reflexivity.
          - rewrite !requests_of_pause_events. reflexivity. }
        destruct ((status =? 404) && negb inc), al, (status =? 200);
          first [ exact Hgo | apply same_run_refl
                | apply same_run_after; [reflexivity | reflexivity | exact Hgo] ].
      * rewrite (scan_cons_overflow (Args b r t s al inc v)
                   _ _ _ _ _ _ _ _ _ _ _ Hp1 H).
        rewrite (scan_cons_overflow (Args b r t s' al inc v')
                   _ _ _ _ _ _ _ _ _ _ _ Hp H).
        cbv zeta. cbn [arg_include_404 arg_all].
        apply same_run_after; [| | apply same_run_refl].
        { rewrite !stdout_of_app, !stdout_of_checking_events. reflexivity. }
        { rewrite !requests_of_app, !requests_of_checking_events. reflexivity. }
Qed.

(** X20: [--verbose] changes neither the lines on standard output, nor
    the requests sent, nor the way the run ends; and neither does the
    value of [--sleep], as long as it does not change whether the pause
    can be made (a value that [time.sleep] refuses ends the run at the
    first pause). *)
Theorem verbose_and_sleep_leave_results (fuel : nat) (base_url : option str)
    (repo : str) (timeout sleep sleep' : Q) (all include_404 : bool)
    (verbose verbose' : bool) (w : world) :
  pause_ok (Args base_url repo timeout sleep all include_404 verbose) w
  = pause_ok (Args base_url repo timeout sleep' all include_404 verbose') w ->
  same_run (main fuel (Args base_url repo timeout sleep all include_404 verbose) w)
           (main fuel (Args base_url repo timeout sleep' all include_404 verbose') w).
Proof.
  intros Hp. rewrite !main_eq. unfold read_base_url. cbn [arg_base_url].
  assert (H : forall base,
    same_run
      (run_with_base fuel (Args base_url repo timeout sleep all include_404 verbose)
         w base)
      (run_with_base fuel (Args base_url repo timeout sleep' all include_404 verbose')
         w base)).
  { intros base. unfold run_with_base. cbn [arg_repo arg_timeout].
    destruct base as [|c base]; [apply same_run_refl |].
    destruct (github_fetch_release_tags _ _ _ _ _) as [t [versions|e|]];
      try apply same_run_refl.
    apply same_run_after; [reflexivity | reflexivity |].
    apply scan_same_run, Hp. }
  assert (Hbind : forall (pre : trace) (base : str),
    same_run
      (let* x := (pre, Ok base) in
       run_with_base fuel (Args base_url repo timeout sleep all include_404 verbose)
         w (PyStr.rstrip_slash x))
      (let* x := (pre, Ok base) in
       run_with_base fuel (Args base_url repo timeout sleep' all include_404 verbose')
         w (PyStr.rstrip_slash x))).
  { intros pre base. cbn [bind]. specialize (H (PyStr.rstrip_slash base)).
    destruct (run_with_base fuel (Args base_url repo timeout sleep all include_404 verbose)
                w (PyStr.rstrip_slash base)) as [t1 r1].
    destruct (run_with_base fuel (Args base_url repo timeout sleep' all include_404 verbose')
                w (PyStr.rstrip_slash base)) as [t2 r2].
    exact (same_run_after pre pre (t1, r1) (t2, r2) eq_refl eq_refl H). }
  destruct (PyStr.strip (default [] base_url)) as [|c b].
  - cbn [bind emit]. destruct (input_line w) as [line|].
    + apply (Hbind [Prompt prompt_text] (PyStr.strip line)).
    + apply same_run_refl.
  - apply (Hbind [] (c :: b)).
Qed.

Lemma verbose_and_sleep_leave_results_witness :
  same_run
    (main 1 (Args (Some (lit "https://sso.example.com/"))
               (lit "goauthentik/authentik") 30 0 true false false)
            (three_version_world not_found asset server_error))
    (main 1 (Args (Some (lit "https://sso.example.com/"))
               (lit "goauthentik/authentik") 30 2 true false true)
            (three_version_world not_found asset server_error)).
Proof.
  apply verbose_and_sleep_leave_results. reflexivity.
Defined.

(** ** The lines of the output *)

Lemma lacks_digits (fuel : nat) :
  forall n acc, lacks 9 acc = true -> lacks 9 (PyStr.digits fuel n acc) = true.
Proof.
  induction fuel as [|fuel IH]; intros n acc Hacc; [exact Hacc |].
  cbn [PyStr.digits].
  assert (H : lacks 9 ((48 + n mod 10)%N :: acc) = true).
  { cbn [lacks forallb]. apply andb_true_iff. split; [|exact Hacc].
    apply negb_true_iff, N.eqb_neq.
    pose proof (N.le_add_r 48 (n mod 10)). lia. }
  destruct (n <? 10)%N; [exact H | apply IH, H].
Qed.

Lemma lacks_of_int (i : Z) : lacks 9 (PyStr.of_int i) = true.
Proof.
  unfold PyStr.of_int.
  pose proof (lacks_digits (S (N.to_nat (N.log2 (Z.to_N (Z.abs i)))))
                (Z.to_N (Z.abs i)) [] eq_refl) as H.
  destruct (i <? 0); [|exact H].
  cbn [lacks forallb]. exact H.
Qed.

Lemma lacks_lower_hex (s : str) :
  forallb is_lower_hex s = true -> lacks 9 s = true.
Proof.
  induction s as [|c s IH]; [reflexivity |]. cbn [forallb lacks].
  rewrite !andb_true_iff. intros [Hc Hs]. split; [|exact (IH Hs)].
  apply negb_true_iff, N.eqb_neq. intros ->. discriminate Hc.
Qed.

(** X21: a row printed for a probe that returned splits at the tabs into
    exactly its five fields (version, status, digest, byte count, URL),
    provided neither the base URL nor the version contains a tab. *)
Theorem tsv_row_fields (w : world) (base_url ver : str) (timeout : Q)
    (t : trace) (status : Z) (md5_hex : str) (nbytes : Z) :
  fetch_status_md5_bytes w (js_url_of base_url ver) timeout
  = (t, Ok (status, md5_hex, nbytes)) ->
  lacks 9 base_url = true -> lacks 9 ver = true ->
  PyStr.split 9 (tsv_row ver status md5_hex nbytes (js_url_of base_url ver))
  = [ver; PyStr.of_int status; md5_hex; PyStr.of_int nbytes;
     js_url_of base_url ver].
Proof.
  intros Hprobe Hbase Hver.
  assert (Hmd5 : lacks 9 md5_hex = true).
  { destruct (probe_result_format_lemma _ _ _ _ _ _ _ Hprobe)
      as [_ [[-> _]|[_ Hhex]]]; [reflexivity | apply lacks_lower_hex, Hhex]. }
  assert (Hurl : lacks 9 (js_url_of base_url ver) = true).
  { unfold js_url_of. rewrite !lacks_app, Hbase, Hver. reflexivity. }
  unfold tsv_row, tab. cbn [app].
  rewrite split_at_sep by exact Hver. f_equal.
  rewrite split_at_sep by apply lacks_of_int. f_equal.
  rewrite split_at_sep by exact Hmd5. f_equal.
  rewrite split_at_sep by apply lacks_of_int. f_equal.
  apply split_lacks, Hurl.
Qed.

Lemma tsv_row_fields_witness :
  PyStr.split 9 (tsv_row (lit "1.0") 200
                   (Hashlib.hexdigest (Hashlib.md5_of (bytes_lit "console.log(1)")))
                   14 (js_url_of example_base (lit "1.0")))
  = [lit "1.0"; PyStr.of_int 200;
     Hashlib.hexdigest (Hashlib.md5_of (bytes_lit "console.log(1)"));
     PyStr.of_int 14; js_url_of example_base (lit "1.0")].
Proof.
  refine (tsv_row_fields (probe_world asset) example_base (lit "1.0") 30
            [Get example_url probe_headers] 200 _ 14 _ _ _).
  - vm_compute. reflexivity.
  - reflexivity.
  - reflexivity.
Defined.

(** ** Exit codes and standard output *)





(** ** Numbers in a row *)

Lemma decimal_value_app (x y : str) (acc : N) :
  decimal_value acc (x ++ y) = decimal_value (decimal_value acc x) y.
Proof.
  revert acc. induction x as [|c x IH]; intros acc; [reflexivity |].
  cbn [app decimal_value]. apply IH.
Qed.

Lemma digits_acc (fuel : nat) :
  forall n acc, PyStr.digits fuel n acc = PyStr.digits fuel n [] ++ acc.
Proof.
  induction fuel as [|fuel IH]; intros n acc; [reflexivity |].
  cbn [PyStr.digits]. destruct (n <? 10)%N; [reflexivity |].
  rewrite (IH _ ((48 + n mod 10)%N :: acc)), (IH _ [(48 + n mod 10)%N]).
  rewrite <- app_assoc. reflexivity.
Qed.

Lemma digits_value (fuel : nat) :
  forall n, (n < 10 ^ N.of_nat fuel)%N ->
    decimal_value 0 (PyStr.digits fuel n []) = n
    /\ forallb is_digit (PyStr.digits fuel n []) = true.
Proof.
  induction fuel as [|fuel IH]; intros n Hn.
  - change (10 ^ N.of_nat 0)%N with 1%N in Hn.
    assert (n = 0%N) by lia. subst n. split; reflexivity.
  - cbn [PyStr.digits].
    assert (Hd : is_digit (48 + n mod 10) = true).
    { assert (H : (n mod 10 < 10)%N) by (apply N.mod_upper_bound; discriminate).
      revert H. generalize (n mod 10)%N. intros m H. unfold is_digit.
      apply andb_true_iff. split; apply N.leb_le; lia. }
    destruct (n <? 10)%N eqn:Hlt.
    + apply N.ltb_lt in Hlt. cbn [decimal_value forallb]. rewrite Hd.
      rewrite N.mod_small by exact Hlt. split; [lia | reflexivity].
    + apply N.ltb_ge in Hlt. rewrite digits_acc.
      assert (Hq : (n / 10 < 10 ^ N.of_nat fuel)%N).
      { apply N.Div0.div_lt_upper_bound.
        rewrite Nat2N.inj_succ, N.pow_succ_r' in Hn. exact Hn. }
      destruct (IH (n / 10)%N Hq) as (Hv & Hf).
      rewrite decimal_value_app, Hv, forallb_app, Hf. cbn [decimal_value forallb].
      rewrite Hd. split; [|reflexivity].
      assert (E : (n = 10 * (n / 10) + n mod 10)%N)
        by (apply N.div_mod; discriminate).
      revert E. generalize (n / 10)%N (n mod 10)%N. intros q m E. lia.
Qed.

Lemma of_int_fuel (n : N) : (n < 10 ^ N.of_nat (S (N.to_nat (N.log2 n))))%N.
Proof.
  rewrite Nat2N.inj_succ, N2Nat.id.
  destruct (N.eq_dec n 0%N) as [->|Hn]; [reflexivity |].
  destruct (N.log2_spec n) as [_ Hlt]; [lia |].
  eapply N.lt_le_trans; [exact Hlt |].
  apply N.pow_le_mono_l. discriminate.
Qed.

(** X23: the numbers of a row are written as plain decimal numerals:
    an optional minus sign and digits only, which read back as the
    number. *)
Theorem of_int_round_trip (i : Z) :
  int_of_str (PyStr.of_int i) = i
  /\ forallb is_digit (if i <? 0 then tl (PyStr.of_int i) else PyStr.of_int i)
     = true.
Proof.
  unfold PyStr.of_int.
  destruct (digits_value _ _ (of_int_fuel (Z.to_N (Z.abs i)))) as [Hv Hf].
  destruct (Z.ltb_spec i 0) as [Hneg|Hpos].
  - cbn [int_of_str tl]. rewrite Hv. split; [lia | exact Hf].
  - split; [|exact Hf].
    destruct (PyStr.digits _ _ []) as [|c d] eqn:Hd.
    + cbn [int_of_str decimal_value]. cbn [decimal_value] in Hv. lia.
    + assert (Hc : c <> 45%N).
      { cbn [forallb] in Hf. apply andb_true_iff in Hf as [Hc _].
        intros ->. discriminate Hc. }
      assert (Hi : int_of_str (c :: d) = Z.of_N (decimal_value 0 (c :: d))).
      { unfold int_of_str. destruct c as [|p]; [reflexivity |].
        repeat (destruct p as [p|p|]; try reflexivity). congruence. }
      rewrite Hi, Hv. lia.
Qed.

(** ** Base URLs without a scheme *)

Lemma span_scheme_no_colon (a rest : str) :
  lacks 58 a = true ->
  (rest = [] \/ exists r, rest = 47%N :: r) ->
  snd (Urllib.span_scheme (a ++ rest)) = []
  \/ exists r, snd (Urllib.span_scheme (a ++ rest)) = 47%N :: r.
Proof.
  intros Ha Hrest. induction a as [|x a IH]; cbn [app].
  - destruct Hrest as [-> | (r & ->)]; [left; reflexivity |].
    right. exists r. reflexivity.
  - cbn [lacks forallb] in Ha. apply andb_true_iff in Ha as [Hx Ha].
    apply negb_true_iff in Hx. cbn [Urllib.span_scheme]. rewrite Hx, orb_false_r.
    destruct (x =? 47)%N eqn:H47.
    + apply N.eqb_eq in H47 as ->. right. eexists. reflexivity.
    + specialize (IH Ha). destruct (Urllib.span_scheme (a ++ rest)) as [u v].
      exact IH.
Qed.

Lemma splittype_no_colon_first (s : str) :
  no_colon_first s -> Urllib.splittype s = None.
Proof.
  intros (a & b & Ha & Hs). unfold Urllib.splittype.
  assert (H : snd (Urllib.span_scheme s) = []
              \/ exists r, snd (Urllib.span_scheme s) = 47%N :: r).
  { destruct Hs as [-> | ->].
    - rewrite <- (app_nil_r a). apply span_scheme_no_colon; [exact Ha | left; reflexivity].
    - apply span_scheme_no_colon; [exact Ha | right; eauto]. }
  destruct (Urllib.span_scheme s) as [u v]. cbn [snd] in H.
  destruct H as [-> | (r & ->)]; destruct u; reflexivity.
Qed.

Lemma no_colon_first_prefix (t r : str) :
  no_colon_first (t ++ r) -> no_colon_first t.
Proof.
  intros (a & b & Ha & [Hs | Hs]).
  - exists t, []. split; [|left; reflexivity].
    rewrite <- Hs, lacks_app in Ha. apply andb_true_iff in Ha as [Ht _]. exact Ht.
  - symmetry in Hs. apply List.app_eq_app in Hs as (l & [[-> Hr] | [-> Hb]]).
    + exists t, []. split; [|left; reflexivity].
      rewrite lacks_app in Ha. apply andb_true_iff in Ha as [Ht _]. exact Ht.
    + destruct l as [|c l].
      * exists a, []. split; [exact Ha | left; rewrite app_nil_r; reflexivity].
      * injection Hb as <- _. exists a, l. split; [exact Ha | right; reflexivity].
Qed.

Lemma no_colon_first_tail (c : N) (s : str) :
  c <> 47%N -> no_colon_first (c :: s) -> no_colon_first s.
Proof.
  intros Hc (a & b & Ha & [Hs | Hs]).
  - exists s, []. split; [|left; reflexivity].
    rewrite <- Hs in Ha. cbn [lacks forallb] in Ha.
    apply andb_true_iff in Ha as [_ Ha]. exact Ha.
  - destruct a as [|x a]; cbn [app] in Hs.
    + injection Hs as -> _. congruence.
    + injection Hs as -> ->. exists a, b. split; [|right; reflexivity].
      cbn [lacks forallb] in Ha. apply andb_true_iff in Ha as [_ Ha]. exact Ha.
Qed.

Lemma no_colon_first_lstrip (s : str) :
  no_colon_first s -> no_colon_first (PyStr.lstrip_by PyStr.isspace s).
Proof.
  induction s as [|c s IH]; intros H; [exact H |].
  cbn [PyStr.lstrip_by]. destruct (PyStr.isspace c) eqn:Hc; [|exact H].
  apply IH. apply (no_colon_first_tail c); [|exact H].
  intros ->. discriminate Hc.
Qed.

Lemma no_colon_first_strip (s : str) :
  no_colon_first s -> no_colon_first (PyStr.strip s).
Proof.
  intros H. apply no_colon_first_lstrip in H. unfold PyStr.strip.
  destruct (rstrip_by_split PyStr.isspace (PyStr.lstrip_by PyStr.isspace s))
    as (r & Hr & _).
  rewrite Hr in H. apply no_colon_first_prefix in H. exact H.
Qed.

Lemma no_colon_first_not_URL (s : str) :
  no_colon_first s -> PyStr.startswith (lit "URL:") s = false.
Proof.
  intros H. destruct (PyStr.startswith (lit "URL:") s) eqn:Hs; [|reflexivity].
  exfalso. apply startswith_spec in Hs as (k & ->).
  change (lit "URL:" ++ k) with (85%N :: 82%N :: 76%N :: 58%N :: k) in H.
  do 3 (apply no_colon_first_tail in H; [|discriminate]).
  destruct H as (a & b & Ha & [Hs | Hs]).
  - rewrite <- Hs in Ha. discriminate Ha.
  - destruct a as [|x a]; cbn [app] in Hs; [discriminate Hs |].
    injection Hs as <- _. discriminate Ha.
Qed.

Lemma splittag_prefix (s : str) :
  exists r, s = fst (Urllib.splittag s) ++ r.
Proof.
  assert (Hp : forall c s x y,
    Urllib.partition c s = Some (x, y) -> s = x ++ c :: y).
  { intros c. induction s0 as [|z s0 IH]; intros x y; cbn [Urllib.partition];
      [discriminate |].
    destruct (z =? c)%N eqn:Hz.
    - apply N.eqb_eq in Hz as ->. intros [= <- <-]. reflexivity.
    - destruct (Urllib.partition c s0) as [[u v]|]; [|discriminate].
      intros [= <- <-]. rewrite (IH u v eq_refl). reflexivity. }
  unfold Urllib.splittag, Urllib.rpartition.
  destruct (Urllib.partition 35 (rev s)) as [[x y]|] eqn:Hpart.
  - apply Hp in Hpart. exists (35%N :: rev x). cbn [fst].
    rewrite <- (rev_involutive s), Hpart, rev_app_distr. cbn [rev].
    rewrite <- app_assoc. reflexivity.
  - exists []. rewrite app_nil_r. reflexivity.
Qed.

Lemma no_colon_first_rejected (url : str) :
  no_colon_first url -> has_scheme url = false.
Proof.
  intros H. unfold has_scheme, Urllib.unwrap.
  apply no_colon_first_strip in H.
  set (u1 := PyStr.strip url) in *.
  assert (H2 : no_colon_first
    (if PyStr.startswith (lit "<") u1 && Urllib.ends_with_char 62 u1
     then PyStr.strip (removelast (tl u1)) else u1)).
  { destruct (PyStr.startswith (lit "<") u1) eqn:Hlt; [|exact H].
    destruct (Urllib.ends_with_char 62 u1); [|exact H]. cbn [andb].
    apply no_colon_first_strip.
    apply startswith_spec in Hlt as (k & Hk).
    change (lit "<" ++ k) with (60%N :: k) in Hk. rewrite Hk in H |- *.
    cbn [tl]. apply no_colon_first_tail in H; [|discriminate].
    destruct k as [|c k]; [exact H |].
    rewrite (app_removelast_last 0%N (l := c :: k)) in H by discriminate.
    apply no_colon_first_prefix in H. exact H. }
  rewrite (no_colon_first_not_URL _ H2).
  destruct (splittag_prefix
              (if PyStr.startswith (lit "<") u1 && Urllib.ends_with_char 62 u1
               then PyStr.strip (removelast (tl u1)) else u1)) as (r & Hr).
  rewrite Hr in H2. apply no_colon_first_prefix in H2.
  rewrite (splittype_no_colon_first _ H2). reflexivity.
Qed.

(** X24: when the base URL contains no colon, as when a host name is
    given without its scheme, no probe can be built, whatever the
    version: the scan of a non-empty list ends at once in the [ValueError]
    of [Request], before any request to the host and without a row. *)
Theorem scan_raises_without_colon (base_url ver : str) :
  lacks 58 base_url = true ->
  has_scheme (js_url_of base_url ver) = false
  /\ forall a w n i hits rest,
       exists full,
         scan a w base_url n i hits (ver :: rest)
         = (checking_events a n i ver, Raise (UnknownUrlType full)).
Proof.
  intros Hbase.
  assert (Hurl : has_scheme (js_url_of base_url ver) = false).
  { apply no_colon_first_rejected.
    exists base_url, (lit "static/dist/admin/AdminInterface-" ++ ver ++ lit ".js").
    split; [exact Hbase | right; reflexivity]. }
  split; [exact Hurl |]. intros a w n i hits rest.
  exists (fst (Urllib.splittag (Urllib.unwrap (js_url_of base_url ver)))).
  rewrite <- (app_nil_r (checking_events a n i ver)).
  apply scan_cons_raise. unfold fetch_status_md5_bytes.
  rewrite (Request_rejects _ _ _ Hurl). reflexivity.
Qed.

Lemma scan_raises_without_colon_witness :
  has_scheme (js_url_of (lit "sso.example.com") (lit "2024.2.1")) = false.
Proof.
  refine (proj1 (scan_raises_without_colon (lit "sso.example.com")
                   (lit "2024.2.1") _)).
  reflexivity.
Defined.

(** ** The requests of a whole run *)

(** X25: the requests of a run with a usable base URL.  They begin with
    the requests for the release index.  If the index fails nothing
    follows, and the run ends by reporting the failure and the token hint
    on standard error.  If the index is fetched, the probes follow: the
    JavaScript URLs of the first [k] versions, in the order of the index,
    all built on the same base, which never ends in a slash. *)
Theorem main_requests (fuel : nat) (a : args) (w : world) (s : str) (t : trace) :
  supplied_base_url a w = Some s ->
  ~ unusable s ->
  no_trail (N.eqb 47) (base_of s)
  /\ (forall e,
        github_fetch_release_tags fuel w (arg_repo a) (arg_timeout a)
          (env_token w) = (t, Raise e) ->
        requests_of (fst (main fuel a w)) = requests_of t
        /\ exists front,
             fst (main fuel a w)
             = front ++ [Stderr (FetchFailed (arg_repo a) e); Stderr TokenTip])
  /\ (forall versions,
        github_fetch_release_tags fuel w (arg_repo a) (arg_timeout a)
          (env_token w) = (t, Ok versions) ->
        exists k,
          requests_of (fst (main fuel a w))
          = requests_of t ++ List.map (js_url_of (base_of s)) (take k versions)).
Proof.
  intros Hs Husable.
  destruct (main_supplied fuel a w s Hs) as (pre & Hmain & Hpre).
  rewrite Hmain. cbn [after fst].
  assert (Hbase : base_of s <> []).
  { intros H. apply Husable. apply unusable_base_of. exact H. }
  split; [apply rstrip_by_no_trail |].
  unfold run_with_base. destruct (base_of s) as [|c b] eqn:Eb; [congruence |].
  split.
  - intros e He. rewrite He. cbn [fst]. split.
    + rewrite !requests_of_app, Hpre. cbn. rewrite app_nil_r. reflexivity.
    + exists (pre ++ t). rewrite app_assoc. reflexivity.
  - intros versions Hv. rewrite Hv. cbn [after fst].
    destruct (scan_requests_prefix a w (c :: b)
                (Z.of_nat (length versions)) versions 1 0) as (k & Hk).
    exists k. rewrite !requests_of_app, Hpre, Hk. cbn.
    rewrite app_nil_r. reflexivity.
Qed.

Lemma main_requests_witness :
  exists k,
    requests_of (fst (main 1 example_args two_tag_world))
    = requests_of (fst (github_fetch_release_tags 1 two_tag_world
                          (lit "goauthentik/authentik") 30 None))
      ++ List.map (js_url_of (base_of (lit "https://sso.example.com/")))
                  (take k [lit "1.0"]).
Proof.
  refine (proj2 (proj2 (main_requests 1 example_args two_tag_world
                          (lit "https://sso.example.com/")
                          (fst (github_fetch_release_tags 1 two_tag_world
                                  (lit "goauthentik/authentik") 30 None))
                          _ _)) [lit "1.0"] _).
  - reflexivity.
  - intros H. apply unusable_base_of in H. vm_compute in H. discriminate H.
  - vm_compute. reflexivity.
Defined.
